(** * GDP waterfall chart: CSV normalisation and waterfall construction

    A shallow embedding of the data-transformation core of the D3 scripts
    of the repository:

    - the first script of [script.js] (module [Script]): the "improved"
      waterfall chart, which leaves out rows without a valid GDP;
    - the waterfall script with [computeWaterfall] and [drawForCountry]
      (module [Part000]), called the earlier script below;
    - [parseNum], which these scripts, the second script of [script.js] and
      the multi-line chart all carry in the same form;
    - the second script of [script.js] (module [ScriptOld]), which keeps
      the rows without a valid GDP;
    - the axis ticks of the earlier script (module [Part000Ticks]);
    - the rows, the series and the selection of the multi-line chart
      (module [Part001]).

    JavaScript strings are sequences of UTF-16 code units, numbers are
    IEEE-754 binary64 values.  Numbers are modelled with the executable
    specification of binary floating point of the standard library
    ([SpecFloat], precision 53, maximal exponent 1024), so every function
    below computes on concrete inputs.  Rendering (axes, bars, tooltips) is
    not modelled; [draw] and [drawForCountry] stop at the data they hand to
    the D3 selections. *)

From Stdlib Require Import Ascii String.
From Stdlib Require Import ZArith NArith PArith List Bool Lia.
From Stdlib Require Import Permutation Sorted.
From Stdlib Require Import SpecFloat.
Import ListNotations.

Set Implicit Arguments.
Local Open Scope Z_scope.

(* ================================================================== *)
(** ** JavaScript strings *)
(* ================================================================== *)

Module JSString.

(** A code unit is a number below 2^16; a string is a list of them. *)
Definition char := N.
Definition jsstring := list char.

(** String literals of the sources (all ASCII). *)
Definition js (s : string) : jsstring :=
  List.map N_of_ascii (list_ascii_of_string s).
Arguments js s%_string.

Fixpoint eqb (a b : jsstring) : bool :=
  match a, b with
  | [], [] => true
  | x :: a', y :: b' => N.eqb x y && eqb a' b'
  | _, _ => false
  end.

(** [WhiteSpace] and [LineTerminator] of ECMA-262: the characters removed
    by [trim] and matched by the regular expression class [\s]. *)
Definition isWhiteSpace (c : char) : bool :=
  ((9 <=? c) && (c <=? 13) || (c =? 32) || (c =? 160) || (c =? 5760)
   || (8192 <=? c) && (c <=? 8202) || (c =? 8232) || (c =? 8233)
   || (c =? 8239) || (c =? 8287) || (c =? 12288) || (c =? 65279))%N.

Fixpoint dropWhile (p : char -> bool) (s : jsstring) : jsstring :=
  match s with
  | [] => []
  | c :: r => if p c then dropWhile p r else s
  end.

Fixpoint takeWhile (p : char -> bool) (s : jsstring) : jsstring :=
  match s with
  | [] => []
  | c :: r => if p c then c :: takeWhile p r else []
  end.

Definition trimStart (s : jsstring) : jsstring := dropWhile isWhiteSpace s.
Definition trimEnd (s : jsstring) : jsstring :=
  rev (dropWhile isWhiteSpace (rev s)).
Definition trim (s : jsstring) : jsstring := trimEnd (trimStart s).

Definition isUpper (c : char) : bool := ((65 <=? c) && (c <=? 90))%N.
Definition isLower (c : char) : bool := ((97 <=? c) && (c <=? 122))%N.
Definition isDigit (c : char) : bool := ((48 <=? c) && (c <=? 57))%N.

(** [String.prototype.toLowerCase] on the ASCII range.  Outside of it the
    real function consults the Unicode tables; no code unit outside ASCII
    is mapped to [n] or [a], so the comparison with ["nan"] in [parseNum]
    is decided by this definition. *)
Definition lowerChar (c : char) : char := if isUpper c then (c + 32)%N else c.
Definition toLowerCase (s : jsstring) : jsstring := List.map lowerChar s.

(** [s.replace(/[class]/g, by)] for a one-character pattern: every match is
    replaced, from left to right. *)
Fixpoint replaceAll (cls : char -> bool) (by_ : jsstring) (s : jsstring)
  : jsstring :=
  match s with
  | [] => []
  | c :: r => if cls c then by_ ++ replaceAll cls by_ r
              else c :: replaceAll cls by_ r
  end.

(** Matching under the [i] flag (without [u]): two code units match when
    their canonical (upper-case) forms agree, and a code unit outside ASCII
    is never identified with an ASCII one. *)
Definition canonicalize (c : char) : char :=
  if isLower c then (c - 32)%N else c.

Definition eqCI (a b : char) : bool := N.eqb (canonicalize a) (canonicalize b).

Fixpoint prefixCI (pat s : jsstring) : bool :=
  match pat, s with
  | [], _ => true
  | p :: pat', c :: s' => eqCI p c && prefixCI pat' s'
  | _ :: _, [] => false
  end.

(** [/pat/i.test(s)] for a literal pattern: a match at some position. *)
Fixpoint containsCI (pat s : jsstring) : bool :=
  prefixCI pat s ||
  match s with
  | [] => false
  | _ :: s' => containsCI pat s'
  end.

(** [/^pat$/i.test(s)] for a literal pattern. *)
Fixpoint matchesCI (pat s : jsstring) : bool :=
  match pat, s with
  | [], [] => true
  | p :: pat', c :: s' => eqCI p c && matchesCI pat' s'
  | _, _ => false
  end.

Fixpoint prefix (pat s : jsstring) : bool :=
  match pat, s with
  | [], _ => true
  | p :: pat', c :: s' => N.eqb p c && prefix pat' s'
  | _ :: _, [] => false
  end.

End JSString.
Import JSString.

(* ================================================================== *)
(** ** JavaScript numbers *)
(* ================================================================== *)

Module JSNumber.

Definition prec : Z := 53.
Definition emax : Z := 1024.

(** A Number value.  [S754_nan] is [NaN], [S754_infinity s] is
    [Infinity] or [-Infinity], [S754_zero s] is [+0] or [-0]. *)
Definition double := spec_float.

Definition NaN : double := S754_nan.
Definition zero : double := S754_zero false.

Definition add : double -> double -> double := SFadd prec emax.
Definition sub : double -> double -> double := SFsub prec emax.

(** The Number value for an integer, rounded to nearest, ties to even. *)
Definition ofZ (z : Z) : double := binary_normalize prec emax z 0 false.

(** [Number.isNaN(x)], also the global [isNaN] on a Number. *)
Definition isNaN (x : double) : bool :=
  match x with S754_nan => true | _ => false end.

(** [Number.isFinite(x)], also the global [isFinite] on a Number. *)
Definition isFinite (x : double) : bool :=
  match x with S754_nan | S754_infinity _ => false | _ => true end.

(** [x === y] (and [x == y]) on Numbers. *)
Definition strictEq (x y : double) : bool := SFeqb x y.
(** [x >= y] and [x < y] on Numbers. *)
Definition ge (x y : double) : bool := SFleb y x.
Definition lt (x y : double) : bool := SFltb x y.

(** [ToBoolean] on a Number: [NaN], [+0] and [-0] are falsy. *)
Definition truthy (x : double) : bool :=
  match x with S754_nan | S754_zero _ => false | _ => true end.

(** [x || y] on Numbers. *)
Definition orElse (x y : double) : double := if truthy x then x else y.

(** The Number value of the decimal [m * 10^e] with sign [neg]: the
    nearest double, ties to even; a literal that rounds to zero keeps its
    sign, one beyond the largest double gives an infinity. *)
Definition ofDecimal (neg : bool) (m : N) (e : Z) : double :=
  match m with
  | N0 => S754_zero neg
  | Npos p =>
      if 0 <=? e
      then binary_round prec emax neg (p * Z.to_pos (10 ^ e)) 0
      else SFdiv prec emax (S754_finite neg p 0)
                 (S754_finite false (Z.to_pos (10 ^ (- e))) 0)
  end.

(** *** Numeric literals *)

Definition digitVal (c : char) : N := (c - 48)%N.

Definition digitsValue (radix : N) (val : char -> N) (ds : jsstring) : N :=
  fold_left (fun acc c => (radix * acc + val c)%N) ds 0%N.

Definition isSign (c : char) : bool := ((c =? 43) || (c =? 45))%N.
Definition isExpMark (c : char) : bool := ((c =? 101) || (c =? 69))%N.
Definition dot : char := 46%N.

(** [ExponentPart_opt]: the exponent and what follows it.  An [e] that is
    not followed by digits is not part of the literal. *)
Definition scanExponent (s : jsstring) : Z * jsstring :=
  match s with
  | c :: r =>
      if isExpMark c then
        let '(neg, r') :=
          match r with
          | c' :: r'' => if isSign c' then (N.eqb c' 45, r'') else (false, r)
          | [] => (false, r)
          end in
        match takeWhile isDigit r' with
        | [] => (0, s)
        | ds => let v := Z.of_N (digitsValue 10 digitVal ds) in
                ((if neg then - v else v), dropWhile isDigit r')
        end
      else (0, s)
  | [] => (0, s)
  end.

(** The longest prefix of [s] that is a [StrUnsignedDecimalLiteral] other
    than [Infinity]: its digits as a number [m], its decimal exponent [e]
    (the literal denotes [m * 10^e]) and the rest of [s]. *)
Definition scanUnsignedDecimal (s : jsstring) : option (N * Z * jsstring) :=
  let ip := takeWhile isDigit s in
  let r1 := dropWhile isDigit s in
  let '(hasDot, fp, r2) :=
    match r1 with
    | c :: r => if N.eqb c dot
                then (true, takeWhile isDigit r, dropWhile isDigit r)
                else (false, [], r1)
    | [] => (false, [], r1)
    end in
  match ip, fp with
  | [], [] => None
  | _, _ =>
      let '(ex, r3) := scanExponent r2 in
      Some (digitsValue 10 digitVal (ip ++ fp),
            ex - Z.of_nat (length fp), r3)
  end.

Definition infinityLit : jsstring := js "Infinity".

(** The longest prefix that is a [StrDecimalLiteral], with its value. *)
Definition scanDecimal (s : jsstring) : option (double * jsstring) :=
  let '(neg, u) :=
    match s with
    | c :: r => if isSign c then (N.eqb c 45, r) else (false, s)
    | [] => (false, s)
    end in
  if prefix infinityLit u
  then Some (S754_infinity neg, skipn (length infinityLit) u)
  else match scanUnsignedDecimal u with
       | Some (m, e, r) => Some (ofDecimal neg m e, r)
       | None => None
       end.

(** [parseFloat(s)] *)
Definition parseFloat (s : jsstring) : double :=
  match scanDecimal (trimStart s) with
  | Some (x, _) => x
  | None => NaN
  end.

Definition isHexDigit (c : char) : bool :=
  (isDigit c || (97 <=? c) && (c <=? 102) || (65 <=? c) && (c <=? 70))%N.
Definition hexVal (c : char) : N :=
  if isDigit c then (c - 48)%N
  else if (97 <=? c)%N then (c - 87)%N else (c - 55)%N.
Definition isOctDigit (c : char) : bool := ((48 <=? c) && (c <=? 55))%N.
Definition isBinDigit (c : char) : bool := ((c =? 48) || (c =? 49))%N.

(** [NonDecimalIntegerLiteral]: [0x], [0o] or [0b] and at least one digit,
    nothing else. *)
Definition nonDecimalLiteral (s : jsstring) : option N :=
  match s with
  | 48%N :: k :: ds =>
      let lit (ok : char -> bool) radix val :=
        match ds with
        | [] => None
        | _ => if forallb ok ds then Some (digitsValue radix val ds)
               else None
        end in
      if ((k =? 120) || (k =? 88))%N then lit isHexDigit 16%N hexVal
      else if ((k =? 111) || (k =? 79))%N then lit isOctDigit 8%N digitVal
      else if ((k =? 98) || (k =? 66))%N then lit isBinDigit 2%N digitVal
      else None
  | _ => None
  end.

(** [StringToNumber]: the conversion applied by unary [+] to a string. *)
Definition StringToNumber (s : jsstring) : double :=
  match trim s with
  | [] => zero
  | t =>
      match nonDecimalLiteral t with
      | Some n => ofZ (Z.of_N n)
      | None =>
          match scanDecimal t with
          | Some (x, []) => x
          | _ => NaN
          end
      end
  end.

(** [+v] for a value that is a string or [undefined]. *)
Definition ToNumber (v : option jsstring) : double :=
  match v with
  | None => NaN
  | Some s => StringToNumber s
  end.

(** [parseInt(s)] without a radix. *)
Definition parseInt (s : jsstring) : double :=
  let t := trimStart s in
  let '(neg, u) :=
    match t with
    | c :: r => if isSign c then (N.eqb c 45, r) else (false, t)
    | [] => (false, t)
    end in
  let '(radix, ok, val, ds) :=
    match u with
    | 48%N :: k :: r =>
        if ((k =? 120) || (k =? 88))%N then (16%N, isHexDigit, hexVal, r)
        else (10%N, isDigit, digitVal, u)
    | _ => (10%N, isDigit, digitVal, u)
    end in
  match takeWhile ok ds with
  | [] => NaN
  | z =>
      match digitsValue radix val z with
      | N0 => S754_zero neg
      | Npos p => binary_round prec emax neg p 0
      end
  end.

End JSNumber.
Import JSNumber.

(* ================================================================== *)
(** ** The numeric normaliser [parseNum]

    Every script of the repository carries this function, with the same
    body. *)
(* ================================================================== *)

Definition isComma (c : char) : bool := (c =? 44)%N.

(** The class [[^0-9eE+.\-]]. *)
Definition notNumeric (c : char) : bool :=
  negb (isDigit c || (c =? 101) || (c =? 69) || (c =? 43) || (c =? 46)
        || (c =? 45))%N.

(** The argument is a field of a parsed row: a string, or [undefined]
    ([None]) when the row has no such property. *)
Definition parseNum (s : option jsstring) : double :=
  match s with
  | None => NaN
  | Some s =>
      let v := trim s in
      if JSString.eqb v [] || JSString.eqb (toLowerCase v) (js "nan") then NaN
      else
        let v := replaceAll isComma (js ".") (replaceAll isWhiteSpace [] v) in
        let v := replaceAll notNumeric [] v in
        let n := parseFloat v in
        if isFinite n then n else NaN
  end.

(* ================================================================== *)
(** ** Parsed rows and arrays *)
(* ================================================================== *)

(** A row object returned by [d3.dsvFormat(";").parse]: one property per
    column of the header, in the order of [Object.keys], every value a
    string. *)
Definition RawRow := list (jsstring * jsstring).

Definition Object_keys (r : RawRow) : list jsstring := List.map fst r.

(** A computed property key: a string, or [undefined], which is looked up as
    the property named ["undefined"]. *)
Definition Key := option jsstring.

Definition ToPropertyKey (k : Key) : jsstring :=
  match k with
  | Some s => s
  | None => js "undefined"
  end.

(** [r[k]] *)
Definition getProp (r : RawRow) (k : Key) : option jsstring :=
  match List.find (fun kv => JSString.eqb (fst kv) (ToPropertyKey k)) r with
  | Some kv => Some (snd kv)
  | None => None
  end.

(** [ToBoolean] on a string or [undefined]. *)
Definition truthyStr (v : option jsstring) : bool :=
  match v with
  | Some (_ :: _) => true
  | _ => false
  end.

(** [a || b] on such values. *)
Definition orStr (a b : option jsstring) : option jsstring :=
  if truthyStr a then a else b.

Section ArraySort.
Variable A : Type.
(** The comparator returns a Number; [NaN] counts as [+0]. *)
Variable comparefn : A -> A -> double.

Fixpoint insertSorted (x : A) (l : list A) : list A :=
  match l with
  | [] => [x]
  | y :: tl => if lt (comparefn x y) zero then x :: y :: tl
               else y :: insertSorted x tl
  end.

(** [Array.prototype.sort(comparefn)]: a stable sort (ECMAScript 2019).
    With a consistent comparator the result is the one of inserting the
    elements one after the other, each behind the elements that do not
    compare greater. *)
Definition Array_sort (l : list A) : list A :=
  fold_left (fun acc x => insertSorted x acc) l [].
End ArraySort.

Section Group.
Variable A K : Type.
Variable keyEqb : K -> K -> bool.
Variable key : A -> K.

(** An insertion-ordered [Map] from keys to arrays of rows. *)
Definition GroupMap := list (K * list A).

Fixpoint groupAdd (x : A) (m : GroupMap) : GroupMap :=
  match m with
  | [] => [(key x, [x])]
  | (k, l) :: tl => if keyEqb k (key x) then (k, l ++ [x]) :: tl
                    else (k, l) :: groupAdd x tl
  end.

(** [d3.group(rows, key)] *)
Definition d3_group (rows : list A) : GroupMap :=
  fold_left (fun m x => groupAdd x m) rows [].

(** [m.get(k)]: [None] is [undefined]. *)
Fixpoint Map_get (m : GroupMap) (k : K) : option (list A) :=
  match m with
  | [] => None
  | (k', l) :: tl => if keyEqb k' k then Some l else Map_get tl k
  end.
End Group.

Section ConsecutiveDef.
Variables A B : Type.
Variable g : A -> A -> B.

(** The loop [for (i = 1; i < a.length; i++) g(a[i-1], a[i])], read
    along the array. *)
Fixpoint consecutive (prev : A) (l : list A) : list B :=
  match l with
  | [] => []
  | cur :: tl => g prev cur :: consecutive cur tl
  end.
End ConsecutiveDef.

(** [a || []] on an array or [undefined]. *)
Definition orEmpty (A : Type) (a : option (list A)) : list A :=
  match a with
  | Some l => l
  | None => []
  end.

(* ================================================================== *)
(** ** script.js *)
(* ================================================================== *)

Module Script.

(** *** Column inference (lines 51-53) *)

Definition countryKey (keys : list jsstring) : Key :=
  orStr (List.find (containsCI (js "country")) keys) (nth_error keys 1).

Definition yearKey (keys : list jsstring) : Key :=
  orStr (List.find (containsCI (js "year")) keys)
        (List.find (fun k => containsCI (js "yr") k
                             || containsCI (js "year") k) keys).

Definition gdpKey (keys : list jsstring) : Key :=
  orStr (List.find (matchesCI (js "GDP")) keys)
        (List.find (containsCI (js "gdp")) keys).

(** *** Row cleaning (lines 56-61) *)

Record Row := {
  country : option jsstring;
  year : double;
  GDP : double;
  raw : RawRow
}.

Definition mkRow (keys : list jsstring) (r : RawRow) : Row :=
  {| country := getProp r (countryKey keys);
     year := ToNumber (getProp r (yearKey keys));
     GDP := parseNum (getProp r (gdpKey keys));
     raw := r |}.

Definition keep (r : Row) : bool :=
  truthyStr (country r) && negb (isNaN (year r)).

(** [data] is the non-empty array of parsed rows; the keys are read off
    its first row. *)
Definition rows (data : list RawRow) : list Row :=
  let keys := Object_keys (hd [] data) in
  filter keep (List.map (mkRow keys) data).

Definition keyEqb (a b : option jsstring) : bool :=
  match a, b with
  | Some x, Some y => JSString.eqb x y
  | None, None => true
  | _, _ => false
  end.

Definition grouped (data : list RawRow) : GroupMap Row (option jsstring) :=
  d3_group keyEqb country (rows data).

(** *** buildWaterfall (lines 79-97) *)

Inductive ItemType := base | increase | decrease.

(** [label] is [String(year)] and only names the bar; it is left out. *)
Record Item := {
  item_year : double;
  value : double;
  type : ItemType
}.

Definition byYear (a b : Row) : double := sub (year a) (year b).

Definition buildWaterfall (grouped : GroupMap Row (option jsstring))
           (country : jsstring) : list Item :=
  let arr := Array_sort byYear (orEmpty (Map_get keyEqb grouped (Some country))) in
  let valid := filter (fun d => negb (isNaN (GDP d))) arr in
  match valid with
  | [] => []
  | first :: _ =>
      {| item_year := year first; value := GDP first; type := base |}
      :: List.map
           (fun i =>
              let prev := nth (i - 1) valid first in
              let cur := nth i valid first in
              let delta := sub (GDP cur) (GDP prev) in
              {| item_year := year cur; value := delta;
                 type := if ge delta zero then increase else decrease |})
           (seq 1 (length valid - 1))
  end.

(** *** The cumulative pass of draw (lines 116-129) *)

Record Computed := {
  it : Item;
  start : double;
  end_ : double;
  cumulative : double
}.

Definition finiteOr0 (x : double) : double := if isFinite x then x else zero.

(** [items.map((it, i) => ...)] with the running total [cum] that the
    callback updates. *)
Fixpoint computedFrom (i : nat) (cum : double) (items : list Item)
  : list Computed :=
  match items with
  | [] => []
  | x :: rest =>
      let s := match i with O => zero | S _ => cum end in
      let e := match i with
               | O => finiteOr0 (value x)
               | S _ => add cum (finiteOr0 (value x))
               end in
      {| it := x; start := s; end_ := e; cumulative := e |}
      :: computedFrom (S i) e rest
  end.

Definition computed (items : list Item) : list Computed :=
  computedFrom 0 zero items.

(** What [draw] hands to the rendering code: the empty-state title, or the
    bars. *)
Inductive Chart := NoData | Bars (bars : list Computed).

Definition draw (grouped : GroupMap Row (option jsstring))
           (country : jsstring) : Chart :=
  match buildWaterfall grouped country with
  | [] => NoData
  | items => Bars (computed items)
  end.

End Script.

(* ================================================================== *)
(** ** The earlier waterfall script *)
(* ================================================================== *)

Module Part000.

(** *** Column inference (lines 38-41) *)

Definition countryKey (keys : list jsstring) : Key :=
  orStr (orStr (List.find (containsCI (js "country")) keys)
               (Some (js "Country Name")))
        (nth_error keys 1).

Definition yearKey (keys : list jsstring) : Key :=
  orStr (List.find (containsCI (js "year")) keys) (Some (js "Year")).

Definition isLetter (c : char) : bool := isUpper c || isLower c.

(** [/^GDP($|[^a-z])/i] *)
Definition startsGDP (k : jsstring) : bool :=
  prefixCI (js "GDP") k &&
  match skipn 3 k with
  | [] => true
  | c :: _ => negb (isLetter c)
  end.

(** The second callback returns the regular expression itself, which is
    truthy, so [find] yields the first key. *)
Definition gdpKey (keys : list jsstring) : Key :=
  orStr (orStr (List.find startsGDP keys) (List.find (fun _ => true) keys))
        (Some (js "GDP")).

(** *** Row cleaning (lines 43-47) *)

Record Row := {
  country : jsstring;
  year : double;
  gdp : double
}.

Definition mkRow (keys : list jsstring) (r : RawRow) : Row :=
  {| country := match getProp r (countryKey keys) with
                | Some (c :: s) => trim (c :: s)
                | _ => []
                end;
     year := orElse (parseInt (trim (match orStr (getProp r (yearKey keys))
                                                 (Some [])
                                     with Some s => s | None => [] end)))
                    NaN;
     gdp := parseNum (getProp r (gdpKey keys)) |}.

Definition keep (d : Row) : bool :=
  truthyStr (Some (country d)) && negb (isNaN (year d)).

Definition cleaned (rows : list RawRow) : list Row :=
  let keys := Object_keys (hd [] rows) in
  filter keep (List.map (mkRow keys) rows).

Definition byCountry (rows : list RawRow) : GroupMap Row jsstring :=
  d3_group JSString.eqb country (cleaned rows).

(** *** computeWaterfall (lines 70-98) *)

Inductive ItemType := start_ | increase | decrease.

Record Item := {
  type : ItemType;
  item_year : double;
  value : double;
  start : double;
  end_ : double
}.

Definition computeWaterfall (dataSorted : list Row) : list Item :=
  match dataSorted with
  | [] => []
  | d0 :: _ =>
      let cum := orElse (gdp d0) zero in
      {| type := start_; item_year := year d0; value := gdp d0;
         start := zero; end_ := cum |}
      :: List.map
           (fun i =>
              let prev := orElse (gdp (nth (i - 1) dataSorted d0)) zero in
              let cur := orElse (gdp (nth i dataSorted d0)) zero in
              let delta := sub cur prev in
              {| type := if ge delta zero then increase else decrease;
                 item_year := year (nth i dataSorted d0);
                 value := delta; start := prev; end_ := cur |})
           (seq 1 (length dataSorted - 1))
  end.

(** *** drawForCountry (lines 100-112) *)

Definition byYear (a b : Row) : double := sub (year a) (year b).

Inductive Chart := NoData | Bars (items : list Item).

Definition drawForCountry (byCountry : GroupMap Row jsstring)
           (countryName : jsstring) : Chart :=
  match orEmpty (Map_get JSString.eqb byCountry countryName) with
  | [] => NoData
  | rows => Bars (computeWaterfall (Array_sort byYear rows))
  end.

End Part000.

(* ================================================================== *)
(** ** The builders' loops, item by item *)
(* ================================================================== *)

Module ScriptLoop.
Import Script.

(** The array [valid] of [buildWaterfall]. *)
Definition valid (grouped : GroupMap Row (option jsstring))
           (country : jsstring) : list Row :=
  filter (fun d => negb (isNaN (GDP d)))
         (Array_sort byYear (orEmpty (Map_get keyEqb grouped (Some country)))).

Definition baseItem (first : Row) : Item :=
  {| item_year := year first; value := GDP first; type := base |}.

(** The item pushed by one turn of the loop. *)
Definition deltaItem (prev cur : Row) : Item :=
  let delta := sub (GDP cur) (GDP prev) in
  {| item_year := year cur; value := delta;
     type := if ge delta zero then increase else decrease |}.

End ScriptLoop.

Module Part000Loop.
Import Part000.

Definition startItem (d0 : Row) : Item :=
  {| type := start_; item_year := year d0; value := gdp d0;
     start := zero; end_ := orElse (gdp d0) zero |}.

Definition deltaItem (p c : Row) : Item :=
  let prev := orElse (gdp p) zero in
  let cur := orElse (gdp c) zero in
  let delta := sub cur prev in
  {| type := if ge delta zero then increase else decrease;
     item_year := year c; value := delta; start := prev; end_ := cur |}.

(** The text handed to [parseInt] for the year of a row. *)
Definition yearText (keys : list jsstring) (r : RawRow) : jsstring :=
  trim (match orStr (getProp r (yearKey keys)) (Some []) with
        | Some s => s
        | None => []
        end).

(** A row of script.js as the earlier script holds it. *)
Definition ofScript (r : Script.Row) : Row :=
  {| country := match Script.country r with Some c => c | None => [] end;
     year := Script.year r;
     gdp := Script.GDP r |}.

(** The kinds of bar, whatever they are called. *)
Definition sameKind (a : Script.ItemType) (b : ItemType) : bool :=
  match a, b with
  | Script.base, start_ => true
  | Script.increase, increase => true
  | Script.decrease, decrease => true
  | _, _ => false
  end.

(** An item of script.js and an item of the earlier script that show the
    same bar: same kind, same year, equal value. *)
Definition sameItem (a : Script.Item) (x : Item) : Prop :=
  sameKind (Script.type a) (type x) = true
  /\ Script.item_year a = item_year x
  /\ strictEq (Script.value a) (value x) = true.

End Part000Loop.

(* ================================================================== *)
(** ** The specification's wording *)
(* ================================================================== *)

Module Spec.

(** Section 4.1, step by step. *)
Definition removeWhitespace (s : jsstring) : jsstring :=
  filter (fun c => negb (isWhiteSpace c)) s.

Definition commaToPoint (s : jsstring) : jsstring :=
  List.map (fun c => if (c =? 44)%N then 46%N else c) s.

(** The characters [0-9 e E + . -]. *)
Definition numericChar (c : char) : bool :=
  existsb (N.eqb c) (js "0123456789eE+.-").

Definition keepNumeric (s : jsstring) : jsstring := filter numericChar s.

Definition equalIgnoringCase (a b : jsstring) : bool := matchesCI a b.

Definition normalize (s : jsstring) : double :=
  let t := trim s in
  match t with
  | [] => NaN
  | _ =>
      if equalIgnoringCase (js "nan") t then NaN
      else
        let n := parseFloat (keepNumeric (commaToPoint (removeWhitespace t))) in
        match n with
        | S754_nan | S754_infinity _ => NaN
        | _ => n
        end
  end.

(** Section 4.3: a year field that is an integer: an optional sign and
    decimal digits, white space around it aside. *)
Definition parsesAsInteger (s : jsstring) : bool :=
  match trim s with
  | [] => false
  | c :: r =>
      let ds := if isSign c then r else c :: r in
      match ds with
      | [] => false
      | _ => forallb isDigit ds
      end
  end.

(** Section 4.2: the first column whose name contains the pattern, case
    ignored, and otherwise a fixed default: a position or a literal name. *)
Inductive Default := Positional (p : nat) | Literal (name : jsstring).

Definition defaultKey (d : Default) (keys : list jsstring) : Key :=
  match d with
  | Positional p => nth_error keys p
  | Literal name => Some name
  end.

Definition selectBySubstring (pat : jsstring) (d : Default)
           (keys : list jsstring) : Key :=
  match List.find (containsCI pat) keys with
  | Some k => Some k
  | None => defaultKey d keys
  end.

End Spec.

(* ================================================================== *)
(** ** Sample tables *)
(* ================================================================== *)

Module Sample.

(** A row under the header [Country Name;Year;GDP]. *)
Definition row (c y g : string) : RawRow :=
  [(js "Country Name", js c); (js "Year", js y); (js "GDP", js g)].

(** The table of section 8. *)
Definition germany : list RawRow :=
  [row "Germany" "2000" "1.000,5"; row "Germany" "2001" "1100"].

(** An invalid GDP between two valid ones. *)
Definition gap : list RawRow :=
  [row "Germany" "2000" "100"; row "Germany" "2001" "nan";
   row "Germany" "2002" "300"].

(** Decimal fractions that are not binary fractions. *)
Definition fractions : list RawRow :=
  [row "Chile" "2000" "1"; row "Chile" "2001" "0.1";
   row "Chile" "2002" "0.3"].

(** The same GDP twice. *)
Definition flat : list RawRow :=
  [row "Peru" "2000" "250"; row "Peru" "2001" "250"].


(** Years that are numbers but not integers. *)
Definition fractionalYear : list RawRow :=
  [row "Germany" "2000.5" "1"; row "Germany" ".5" "2"].

(** The Number written as a decimal literal. *)
Definition num (s : string) : double := parseFloat (js s).

End Sample.

(* ================================================================== *)
(** ** The order of the years *)
(* ================================================================== *)

Module NumOrder.

(** The least exponent of a double, -1074. *)
Definition emin : Z := SpecFloat.emin prec emax.

(** The value of a finite Number in units of [2^emin], an integer. *)
Definition scaled (x : double) : Z :=
  match x with
  | S754_finite s m e => cond_Zopp s (Zpos m) * 2 ^ (e - emin)
  | _ => 0
  end.

(** The exponent of a finite Number is at least [emin]; the results of
    parsing and of arithmetic are of this form. *)
Definition inRange (x : double) : bool :=
  match x with
  | S754_finite _ _ e => emin <=? e
  | _ => true
  end.

(** [a] is at most [b] as a real number or infinity; [NaN] is incomparable. *)
Definition leNum (a b : double) : bool :=
  match a, b with
  | S754_nan, _ | _, S754_nan => false
  | S754_infinity true, _ => true
  | _, S754_infinity false => true
  | S754_infinity false, _ => false
  | _, S754_infinity true => false
  | _, _ => scaled a <=? scaled b
  end.

(** A year that can be sorted: a Number other than [NaN]. *)
Definition sortable (x : double) : bool := negb (isNaN x) && inRange x.

End NumOrder.

(* ================================================================== *)
(** ** The second script of script.js (lines 235-471)

    The waterfall chart before its improvement: the same rows, items and
    bars as in [Script], with literal default names for the country and year
    columns, without the filter on the GDP and without the guard on the
    running total. *)
(* ================================================================== *)

Module ScriptOld.

(** *** Column inference (lines 282-284) *)

Definition countryKey (keys : list jsstring) : Key :=
  orStr (orStr (List.find (containsCI (js "country")) keys)
               (Some (js "Country Name")))
        (nth_error keys 1).

Definition yearKey (keys : list jsstring) : Key :=
  orStr (List.find (containsCI (js "year")) keys) (Some (js "Year")).

Definition gdpKey (keys : list jsstring) : Key :=
  orStr (List.find (matchesCI (js "GDP")) keys)
        (List.find (containsCI (js "gdp")) keys).

(** *** Row cleaning (lines 287-292) *)

Definition mkRow (keys : list jsstring) (r : RawRow) : Script.Row :=
  {| Script.country := getProp r (countryKey keys);
     Script.year := ToNumber (getProp r (yearKey keys));
     Script.GDP := parseNum (getProp r (gdpKey keys));
     Script.raw := r |}.

Definition keep (r : Script.Row) : bool :=
  truthyStr (Script.country r) && negb (isNaN (Script.year r)).

Definition rows (data : list RawRow) : list Script.Row :=
  let keys := Object_keys (hd [] data) in
  filter keep (List.map (mkRow keys) data).

Definition grouped (data : list RawRow)
  : GroupMap Script.Row (option jsstring) :=
  d3_group Script.keyEqb Script.country (rows data).

(** *** buildWaterfall (lines 310-325) *)

Definition buildWaterfall (grouped : GroupMap Script.Row (option jsstring))
           (country : jsstring) : list Script.Item :=
  let arr := Array_sort Script.byYear
               (orEmpty (Map_get Script.keyEqb grouped (Some country))) in
  match arr with
  | [] => []
  | first :: _ =>
      {| Script.item_year := Script.year first;
         Script.value := Script.GDP first;
         Script.type := Script.base |}
      :: List.map
           (fun i =>
              let delta := sub (Script.GDP (nth i arr first))
                               (Script.GDP (nth (i - 1) arr first)) in
              {| Script.item_year := Script.year (nth i arr first);
                 Script.value := delta;
                 Script.type := if ge delta zero then Script.increase
                                else Script.decrease |})
           (seq 1 (length arr - 1))
  end.

(** *** The cumulative pass of draw (lines 339-352) *)

Fixpoint computedFrom (i : nat) (cum : double) (items : list Script.Item)
  : list Script.Computed :=
  match items with
  | [] => []
  | x :: rest =>
      let s := match i with O => zero | S _ => cum end in
      let e := match i with
               | O => Script.value x
               | S _ => add cum (Script.value x)
               end in
      {| Script.it := x; Script.start := s; Script.end_ := e;
         Script.cumulative := e |}
      :: computedFrom (S i) e rest
  end.

Definition computed (items : list Script.Item) : list Script.Computed :=
  computedFrom 0 zero items.

Definition draw (grouped : GroupMap Script.Row (option jsstring))
           (country : jsstring) : Script.Chart :=
  match buildWaterfall grouped country with
  | [] => Script.NoData
  | items => Script.Bars (computed items)
  end.

End ScriptOld.

(* ================================================================== *)
(** ** The axis ticks of the earlier script (lines 114-128) *)
(* ================================================================== *)

Section IndexedFilter.
Variable A : Type.
Variable p : A -> nat -> bool.

(** [a.filter((d, i) => p(d, i))] *)
Fixpoint filterFrom (i : nat) (l : list A) : list A :=
  match l with
  | [] => []
  | x :: tl => if p x i then x :: filterFrom (S i) tl
               else filterFrom (S i) tl
  end.

Definition Array_filter_indexed (l : list A) : list A := filterFrom 0 l.
End IndexedFilter.

Module Part000Ticks.

(** [Math.ceil(n / d)] for an array length [n]: the quotient of two
    integers below 2^32 is rounded to a double that lies on the same side of
    every integer, so the ceiling is the one of the exact quotient. *)
Definition ceilDiv (n d : nat) : nat := ((n + d - 1) / d)%nat.

(** [(i % step) === 0]; the remainder by 0 is [NaN]. *)
Definition isMultiple (step i : nat) : bool :=
  match step with
  | O => false
  | S _ => Nat.eqb (i mod step) 0
  end.

Definition years (items : list Part000.Item) : list double :=
  List.map Part000.item_year items.

Definition xTicksEvery (years : list double) : nat :=
  ceilDiv (length years) 12.

Definition xTickValues (years : list double) : list double :=
  Array_filter_indexed (fun _ i => isMultiple (xTicksEvery years) i) years.

End Part000Ticks.

(* ================================================================== *)
(** ** The multi-line chart (src/unnamed/part_001) *)
(* ================================================================== *)

Module Part001.

(** *** Rows (lines 48-78): the keys are looked up row by row *)

Definition countryKey (row : RawRow) : Key :=
  orStr (List.find (containsCI (js "country")) (Object_keys row))
        (Some (js "Country Name")).

Definition yearKey (row : RawRow) : Key :=
  orStr (List.find (containsCI (js "year")) (Object_keys row))
        (Some (js "Year")).

(** [a ?? b] on a string or [undefined]. *)
Definition coalesce (a b : option jsstring) : option jsstring :=
  match a with
  | Some _ => a
  | None => b
  end.

(** [code] and [continent] are a string or [null] ([None]). *)
Record Row := {
  country : option jsstring;
  year : double;
  GDP : double;
  GDP_growth : double;
  population : double;
  code : option jsstring;
  continent : option jsstring;
  raw : RawRow
}.

Definition field (row : RawRow) (name : string) : option jsstring :=
  getProp row (Some (js name)).

Definition mkRow (row : RawRow) : Row :=
  {| country := getProp row (countryKey row);
     year := ToNumber (getProp row (yearKey row));
     GDP := parseNum
              (coalesce
                 (coalesce
                    (coalesce (field row "GDP")
                       (field row " Gross domestic product (current US$) "))
                    (field row "GDP (current)"))
                 (field row "GDP"));
     GDP_growth := parseNum
                     (coalesce (coalesce (field row "GDP growth")
                                         (field row "GDP growth"))
                               (field row "GDP growth"));
     population :=
       parseNum
         (coalesce
            (field row
               "Population - Sex: all - Age: all - Variant: estimates")
            (field row "Population"));
     code := orStr (orStr (field row "Code") (field row "Country Code")) None;
     continent := orStr (orStr (field row "continent")
                               (field row "Continent")) None;
     raw := row |}.

Definition cleaned (data : list RawRow) : list Row := List.map mkRow data.

Definition filtered (data : list RawRow) : list Row :=
  filter (fun d => truthyStr (country d) && negb (isNaN (year d)))
         (cleaned data).

(** *** Series (lines 81-89) *)

Definition keyEqb : option jsstring -> option jsstring -> bool :=
  Script.keyEqb.

Definition seriesByCountry (data : list RawRow)
  : GroupMap Row (option jsstring) :=
  d3_group keyEqb country (filtered data).

Definition byYear (a b : Row) : double := sub (year a) (year b).

Record Series := {
  s_country : option jsstring;
  values : list Row
}.

(** The loop over the entries of the map, in insertion order. *)
Definition series (data : list RawRow) : list Series :=
  List.map (fun kv => {| s_country := fst kv;
                         values := Array_sort byYear (snd kv) |})
           (seriesByCountry data).

(** *** update (line 147) and readSelectionAndUpdate (lines 238-246) *)

(** [a.includes(v)] *)
Definition includes (a : list (option jsstring)) (v : option jsstring)
  : bool :=
  existsb (fun x => keyEqb x v) a.

(** The series that [update] joins to the lines of the chart. *)
Definition update (data : list RawRow)
           (selectedCountries : list (option jsstring)) : list Series :=
  filter (fun s => includes selectedCountries (s_country s)) (series data).

(** [countries] is the array of country names in the order of
    [localeCompare], which depends on the locale and is taken as given;
    [selectedOptions] are the values of the options selected in the page. *)
Definition readSelectionAndUpdate (data : list RawRow)
           (countries : list jsstring) (selectedOptions : list jsstring)
  : list Series :=
  let selected := firstn 6 (List.map Some selectedOptions) in
  match selected with
  | [] => update data [nth_error countries 0]
  | _ => update data selected
  end.

(** The points that get a hover circle (lines 193 and 216). *)
Definition circles (s : Series) : list Row :=
  filter (fun v => negb (isNaN (GDP v))) (values s).

End Part001.

(* ================================================================== *)
(** ** Readings used by the further properties *)
(* ================================================================== *)

(** The last four lines of [parseNum], applied to the trimmed text. *)
Definition parseNumTail (v : jsstring) : double :=
  let v := replaceAll isComma (js ".") (replaceAll isWhiteSpace [] v) in
  let v := replaceAll notNumeric [] v in
  let n := parseFloat v in
  if isFinite n then n else NaN.

(** The rows of a table that belong to a country and have a valid GDP. *)
Definition validRowsOf (country : jsstring) (rows : list Script.Row)
  : list Script.Row :=
  filter (fun r => Script.keyEqb (Script.country r) (Some country)
                   && negb (isNaN (Script.GDP r))) rows.

(** Ascending order of Numbers, as real numbers. *)
Definition ascending (l : list double) : Prop :=
  StronglySorted (fun a b => NumOrder.leNum a b = true) l.

(** The array [arr] of [buildWaterfall] in the second script of script.js
    (lines 310-325): the rows of the country in year order, invalid GDP
    included. *)
Module ScriptOldLoop.
Definition arr (grouped : GroupMap Script.Row (option jsstring))
           (country : jsstring) : list Script.Row :=
  Array_sort Script.byYear
             (orEmpty (Map_get Script.keyEqb grouped (Some country))).
End ScriptOldLoop.

(** Further tables. *)
Module Tables.

(** A table without a GDP column. *)
Definition noGdpColumn : list RawRow :=
  [[(js "Country", js "Germany"); (js "Year", js "2000");
    (js "Value", js "100")];
   [(js "Country", js "Germany"); (js "Year", js "2001");
    (js "Value", js "120")]].

(** The header of a table whose GDP column has a long name. *)
Definition longNames : list jsstring :=
  [js "Country Name"; js "Year"; js "Gross domestic product"].

End Tables.

(** The rows handed to [computeWaterfall] by [drawForCountry]
    (part_000 lines 104-112). *)
Module Part000Draw.
Definition sorted (byCountry : GroupMap Part000.Row jsstring)
           (countryName : jsstring) : list Part000.Row :=
  Array_sort Part000.byYear
             (orEmpty (Map_get JSString.eqb byCountry countryName)).
End Part000Draw.

(* ================================================================== *)
(** ** Facts about Numbers *)
(* ================================================================== *)

Section NumberFacts.

Lemma iter_pos_invariant (A : Type) (f : A -> A) (P : A -> Prop) :
  (forall x, P x -> P (f x)) ->
  forall p x, P x -> P (iter_pos f p x).
Proof.
  intros Hf p; induction p as [p IH | p IH |]; intros x Hx; simpl; auto.
Qed.

Lemma shr_1_nonneg mrs : 0 <= shr_m mrs -> 0 <= shr_m (shr_1 mrs).
Proof.
  destruct mrs as [m r s]; destruct m as [| [p | p |] | p]; simpl; lia.
Qed.

Lemma shr_fexp_nonneg m e l :
  0 <= m -> 0 <= shr_m (fst (shr_fexp prec emax m e l)).
Proof.
  intros Hm. unfold shr_fexp, shr.
  assert (H0 : 0 <= shr_m (shr_record_of_loc m l))
    by (destruct l as [| []]; simpl; exact Hm).
  destruct (fexp prec emax (Zdigits2 m + e) - e) as [| p | p]; simpl; auto.
  apply iter_pos_invariant; auto using shr_1_nonneg.
Qed.

Lemma round_nearest_even_nonneg m l :
  0 <= m -> 0 <= round_nearest_even m l.
Proof.
  intros Hm; destruct l as [| []]; simpl; try lia.
  destruct (Z.even m); lia.
Qed.

(** Rounding a non-negative mantissa never yields [NaN]. *)
Lemma binary_round_aux_not_nan s m e l :
  0 <= m -> isNaN (binary_round_aux prec emax s m e l) = false.
Proof.
  intros Hm. unfold binary_round_aux.
  pose proof (shr_fexp_nonneg e l Hm) as H1.
  destruct (shr_fexp prec emax m e l) as [mrs' e']. simpl in H1.
  pose proof (shr_fexp_nonneg e' loc_Exact
                (round_nearest_even_nonneg (loc_of_shr_record mrs') H1)) as H2.
  destruct (shr_fexp prec emax _ e' loc_Exact) as [mrs'' e'']. simpl in H2.
  destruct (shr_m mrs'') as [| p | p]; [reflexivity | | lia].
  destruct (e'' <=? emax - prec); reflexivity.
Qed.

Lemma binary_round_not_nan s m e :
  isNaN (binary_round prec emax s m e) = false.
Proof.
  unfold binary_round.
  destruct (shl_align m e _) as [mz ez].
  apply binary_round_aux_not_nan; lia.
Qed.

Lemma binary_normalize_not_nan m e sz :
  isNaN (binary_normalize prec emax m e sz) = false.
Proof.
  destruct m; simpl; auto using binary_round_not_nan.
Qed.

Lemma ofZ_not_nan z : isNaN (ofZ z) = false.
Proof. apply binary_normalize_not_nan. Qed.

Lemma sub_finite_not_nan x y :
  isFinite x = true -> isFinite y = true -> isNaN (sub x y) = false.
Proof.
  destruct x as [sx | sx | | sx mx ex], y as [sy | sy | | sy my ey];
    simpl; try discriminate; intros _ _.
  - destruct sx, sy; reflexivity.
  - reflexivity.
  - reflexivity.
  - apply binary_normalize_not_nan.
Qed.

Lemma add_finite_not_nan x y :
  isNaN x = false -> isFinite y = true -> isNaN (add x y) = false.
Proof.
  destruct x as [sx | sx | | sx mx ex], y as [sy | sy | | sy my ey];
    simpl; try discriminate; intros _ _; try reflexivity.
  - destruct sx, sy; reflexivity.
  - apply binary_normalize_not_nan.
Qed.

Lemma SFcompare_refl x : isNaN x = false -> SFcompare x x = Some Eq.
Proof.
  destruct x as [s | s | | s m e]; simpl; try discriminate; intros _.
  - reflexivity.
  - destruct s; reflexivity.
  - rewrite Z.compare_refl, Pos.compare_cont_refl. destruct s; reflexivity.
Qed.

(** [x === x] unless [x] is [NaN]. *)
Lemma strictEq_refl x : isNaN x = false -> strictEq x x = true.
Proof.
  intros H. unfold strictEq, SFeqb. now rewrite SFcompare_refl.
Qed.

Lemma strictEq_not_nan x y : strictEq x y = true -> isNaN x = false.
Proof. destruct x, y; simpl; auto; discriminate. Qed.

(** [x < 0] excludes [x >= 0]. *)
Lemma lt_zero_not_ge x : lt x zero = true -> ge x zero = false.
Proof.
  destruct x as [s | s | | s m e]; simpl; try discriminate; auto;
    destruct s; simpl; auto; discriminate.
Qed.

(** A Number equal to zero, of either sign, satisfies [x >= 0]. *)
Lemma eq_zero_ge x : strictEq x zero = true -> ge x zero = true.
Proof.
  destruct x as [s | s | | s m e]; simpl; try discriminate; auto;
    destruct s; simpl; auto; discriminate.
Qed.

Lemma finiteOr0_finite x : isFinite (Script.finiteOr0 x) = true.
Proof. unfold Script.finiteOr0. destruct x; reflexivity. Qed.

Lemma orElse_zero_finite x :
  isNaN x = true \/ isFinite x = true -> isFinite (orElse x zero) = true.
Proof. destruct x; simpl; intuition discriminate. Qed.

(** On Numbers other than [NaN], [x || 0] is equal to [x]. *)
Lemma orElse_zero_eq x : isNaN x = false -> strictEq (orElse x zero) x = true.
Proof.
  destruct x as [s | s | | s m e]; simpl; try discriminate; intros _.
  - reflexivity.
  - apply (@strictEq_refl (S754_infinity s)); reflexivity.
  - apply (@strictEq_refl (S754_finite s m e)); reflexivity.
Qed.

(** [parseNum] yields [NaN] or a finite Number, never an infinity. *)
Lemma parseNum_finite_or_nan v :
  isNaN (parseNum v) = true \/ isFinite (parseNum v) = true.
Proof.
  destruct v as [s |]; simpl; auto.
  destruct (_ || _); auto.
  match goal with |- context [isFinite (parseFloat ?u)] =>
    destruct (isFinite (parseFloat u)) eqn:E end; auto.
Qed.

End NumberFacts.

(** Some Numbers, written as sign, mantissa and binary exponent:
    1 is 2^52 * 2^-52, 1000.5 is 2001 * 2^42 * 2^-43, and 0.1 is the double
    nearest to one tenth. *)
Lemma number_examples :
  ofZ 1 = S754_finite false (2 ^ 52) (-52)
  /\ Sample.num "1" = ofZ 1
  /\ Sample.num "1100" = ofZ 1100
  /\ Sample.num "1000.5" = S754_finite false (2001 * 2 ^ 42) (-43)
  /\ Sample.num "0.1" = S754_finite false 7205759403792794 (-56)
  /\ Sample.num "1e400" = S754_infinity false
  /\ Sample.num "-0" = S754_zero true
  /\ Sample.num "x" = NaN
  /\ StringToNumber (js " 2000 ") = ofZ 2000
  /\ StringToNumber (js "") = zero
  /\ StringToNumber (js "2000a") = NaN
  /\ parseInt (js "2000a") = ofZ 2000
  /\ parseInt (js "") = NaN.
Proof. repeat split; vm_compute; reflexivity. Qed.

(* ================================================================== *)
(** ** Facts about arrays and groups *)
(* ================================================================== *)

Section Consecutive.
Variables A B : Type.
Variable g : A -> A -> B.

Lemma map_seq_consecutive (d : A) (rest : list A) : forall first,
  List.map (fun i => g (nth (i - 1) (first :: rest) d)
                       (nth i (first :: rest) d))
           (seq 1 (length rest))
  = consecutive g first rest.
Proof.
  induction rest as [| cur tl IH]; intros first; [reflexivity |].
  cbn [length seq List.map consecutive]. f_equal.
  rewrite <- (IH cur), <- seq_shift, map_map.
  apply map_ext_in. intros i Hi. apply in_seq in Hi.
  destruct i as [| i]; [lia |].
  replace (S (S i) - 1)%nat with (S i) by lia.
  replace (S i - 1)%nat with i by lia.
  reflexivity.
Qed.

Lemma consecutive_length prev l : length (consecutive g prev l) = length l.
Proof. revert prev; induction l; simpl; auto. Qed.
End Consecutive.

Section SortFacts.
Variable A : Type.
Variable comparefn : A -> A -> double.

Lemma insertSorted_perm x l :
  Permutation (insertSorted comparefn x l) (x :: l).
Proof.
  induction l as [| y tl IH]; simpl; auto.
  destruct (lt (comparefn x y) zero); auto.
  rewrite IH. apply perm_swap.
Qed.

Lemma fold_insert_perm l : forall acc,
  Permutation (fold_left (fun acc x => insertSorted comparefn x acc) l acc)
              (l ++ acc).
Proof.
  induction l as [| x l IH]; intros acc; simpl; auto.
  rewrite IH, insertSorted_perm. symmetry. apply Permutation_middle.
Qed.

(** Sorting rearranges the array, it neither drops nor invents rows. *)
Lemma Array_sort_perm l : Permutation (Array_sort comparefn l) l.
Proof.
  unfold Array_sort. rewrite fold_insert_perm, app_nil_r. reflexivity.
Qed.

Lemma Array_sort_in l x : In x (Array_sort comparefn l) <-> In x l.
Proof.
  split; apply Permutation_in;
    [apply Array_sort_perm | apply Permutation_sym, Array_sort_perm].
Qed.

Lemma Array_sort_nil_inv l : Array_sort comparefn l = [] -> l = [].
Proof.
  intros H. apply Permutation_nil. rewrite <- H.
  apply Array_sort_perm.
Qed.
End SortFacts.

Section SortMap.
Variables A B : Type.
Variable f : A -> B.
Variable cmpA : A -> A -> double.
Variable cmpB : B -> B -> double.
Hypothesis cmp_f : forall a b, cmpB (f a) (f b) = cmpA a b.

Lemma insertSorted_map x l :
  insertSorted cmpB (f x) (List.map f l) = List.map f (insertSorted cmpA x l).
Proof.
  induction l as [| y tl IH]; simpl; auto.
  rewrite cmp_f. destruct (lt (cmpA x y) zero); simpl; congruence.
Qed.

(** Sorting commutes with a relabelling that keeps the comparator. *)
Lemma Array_sort_map l :
  Array_sort cmpB (List.map f l) = List.map f (Array_sort cmpA l).
Proof.
  unfold Array_sort.
  change (@nil B) with (List.map f []). generalize (@nil A) as acc.
  induction l as [| x l IH]; intros acc; simpl; auto.
  rewrite insertSorted_map. apply IH.
Qed.
End SortMap.

Section GroupFacts.
Variables A K : Type.
Variable keyEqb : K -> K -> bool.
Variable key : A -> K.
Variable P : A -> Prop.

Lemma groupAdd_members x m :
  P x ->
  Forall (fun kl => Forall P (snd kl)) m ->
  Forall (fun kl => Forall P (snd kl)) (groupAdd keyEqb key x m).
Proof.
  intros Hx.
  induction m as [| [k l] tl IH]; intros Hm; simpl.
  - repeat constructor; auto.
  - inversion Hm as [| ? ? Hl Htl]; subst.
    destruct (keyEqb k (key x)); constructor; simpl; auto.
    apply Forall_app; auto.
Qed.

Lemma d3_group_members rows :
  Forall P rows ->
  Forall (fun kl => Forall P (snd kl)) (d3_group keyEqb key rows).
Proof.
  unfold d3_group.
  assert (H0 : Forall (fun kl : K * list A => Forall P (snd kl)) [])
    by constructor.
  revert H0. generalize (@nil (K * list A)) as m.
  induction rows as [| x rows IH]; intros m Hm Hrows; simpl; auto.
  inversion Hrows; subst. apply IH; auto using groupAdd_members.
Qed.

Lemma Map_get_members m k l :
  Forall (fun kl => Forall P (snd kl)) m ->
  Map_get keyEqb m k = Some l -> Forall P l.
Proof.
  induction m as [| [k' l'] tl IH]; simpl; [discriminate |].
  intros Hm. inversion Hm; subst.
  destruct (keyEqb k' k); [intros [= <-]; auto | auto].
Qed.

(** What holds of every row holds of every row of every group. *)
Lemma group_get_Forall rows k :
  Forall P rows ->
  Forall P (orEmpty (Map_get keyEqb (d3_group keyEqb key rows) k)).
Proof.
  intros H. destruct (Map_get _ _ k) as [l |] eqn:E; simpl; [| constructor].
  eapply Map_get_members; [| exact E]. now apply d3_group_members.
Qed.
End GroupFacts.

(* ================================================================== *)
(** ** script.js: the shape of the waterfall *)
(* ================================================================== *)

Section ScriptFacts.
Import Script ScriptLoop.

Variable grouped : GroupMap Row (option jsstring).
Variable country : jsstring.

(** [buildWaterfall] is the base item followed by one item for each pair of
    neighbours in [valid]. *)
Lemma buildWaterfall_items :
  buildWaterfall grouped country =
  match valid grouped country with
  | [] => []
  | first :: rest => baseItem first :: consecutive deltaItem first rest
  end.
Proof.
  unfold buildWaterfall. fold (valid grouped country).
  destruct (valid grouped country) as [| first rest]; [reflexivity |].
  f_equal. cbn [length]. rewrite Nat.sub_succ, Nat.sub_0_r.
  exact (map_seq_consecutive deltaItem first rest first).
Qed.

Lemma valid_not_nan r : In r (valid grouped country) -> isNaN (GDP r) = false.
Proof.
  unfold valid. intros H. apply filter_In in H as [_ H].
  now apply negb_true_iff.
Qed.

Lemma valid_in_group r :
  In r (valid grouped country) ->
  In r (orEmpty (Map_get keyEqb grouped (Some country))).
Proof.
  unfold valid. intros H. apply filter_In in H as [H _].
  now apply Array_sort_in in H.
Qed.

End ScriptFacts.

Section ScriptItems.
Import Script ScriptLoop.

Lemma deltaItem_type prev cur :
  type (deltaItem prev cur) =
  if ge (value (deltaItem prev cur)) zero then increase else decrease.
Proof. reflexivity. Qed.

(** Every item after the first is classified by the sign of its value. *)
Lemma consecutive_type x : forall first rest,
  In x (consecutive deltaItem first rest) ->
  type x = if ge (value x) zero then increase else decrease.
Proof.
  intros first rest; revert first.
  induction rest as [| cur tl IH]; intros first; simpl; [tauto |].
  intros [<- | H]; [apply deltaItem_type | eauto].
Qed.

Lemma computedFrom_it items : forall i cum,
  List.map it (computedFrom i cum items) = items.
Proof.
  induction items as [| x rest IH]; intros i cum; simpl; [| rewrite IH];
    reflexivity.
Qed.

(** The running total is a Number: it never becomes [NaN]. *)
Lemma computedFrom_not_nan items : forall i cum c,
  isNaN cum = false ->
  In c (computedFrom i cum items) ->
  isNaN (start c) = false /\ isNaN (end_ c) = false.
Proof.
  induction items as [| x rest IH]; intros i cum c Hcum; simpl; [tauto |].
  assert (He : isNaN (match i with
                      | O => finiteOr0 (value x)
                      | S _ => add cum (finiteOr0 (value x))
                      end) = false).
  { destruct i.
    - pose proof (finiteOr0_finite (value x)) as F.
      destruct (finiteOr0 (value x)); simpl in *; congruence.
    - apply add_finite_not_nan; auto using finiteOr0_finite. }
  intros [<- | H]; simpl.
  - split; [destruct i; auto | exact He].
  - eapply IH; eauto.
Qed.

(** Each bar starts where the previous one ended. *)
Lemma computedFrom_chain items : forall i cum n a b,
  nth_error (computedFrom i cum items) n = Some a ->
  nth_error (computedFrom i cum items) (S n) = Some b ->
  start b = end_ a.
Proof.
  induction items as [| x rest IH]; intros i cum n a b; simpl.
  - destruct n; discriminate.
  - destruct n as [| n]; simpl.
    + intros [= <-]. destruct rest as [| y rest']; simpl; [discriminate |].
      intros [= <-]. reflexivity.
    + apply (IH (S i)).
Qed.

(** Each bar ends at its start plus its value, when the value is finite. *)
Lemma computedFrom_end items : forall i cum c,
  isNaN cum = false ->
  In c (computedFrom i cum items) ->
  isFinite (value (it c)) = true ->
  strictEq (end_ c) (add (start c) (value (it c))) = true.
Proof.
  induction items as [| x rest IH]; intros i cum c Hcum; simpl; [tauto |].
  intros [<- | H]; simpl.
  - intros Hfin. unfold finiteOr0. rewrite Hfin. destruct i.
    + destruct (value x) as [s | s | | s m e]; try discriminate.
      * destruct s; reflexivity.
      * apply (@strictEq_refl (S754_finite s m e)); reflexivity.
    + apply strictEq_refl, add_finite_not_nan; auto.
  - intros Hfin. eapply IH; [| exact H | exact Hfin].
    destruct i.
    + pose proof (finiteOr0_finite (value x)) as F.
      destruct (finiteOr0 (value x)); simpl in *; congruence.
    + apply add_finite_not_nan; auto using finiteOr0_finite.
Qed.

End ScriptItems.

(* ================================================================== *)
(** ** The earlier script: the shape of the waterfall *)
(* ================================================================== *)

Section Part000Facts.
Import Part000 Part000Loop.

Lemma computeWaterfall_items rows :
  computeWaterfall rows =
  match rows with
  | [] => []
  | d0 :: rest => startItem d0 :: consecutive deltaItem d0 rest
  end.
Proof.
  destruct rows as [| d0 rest]; [reflexivity |].
  unfold computeWaterfall. f_equal.
  cbn [length]. rewrite Nat.sub_succ, Nat.sub_0_r.
  exact (map_seq_consecutive deltaItem d0 rest d0).
Qed.

Lemma orElse_zero_not_nan x : isNaN (orElse x zero) = false.
Proof. destruct x; reflexivity. Qed.

(** Each item starts at the value the previous one ended at. *)
Lemma consecutive_chain : forall rest h prev n a b,
  end_ h = orElse (gdp prev) zero ->
  nth_error (h :: consecutive deltaItem prev rest) n = Some a ->
  nth_error (h :: consecutive deltaItem prev rest) (S n) = Some b ->
  start b = end_ a.
Proof.
  induction rest as [| cur tl IH]; intros h prev n a b Hh.
  - destruct n as [| [| n]]; simpl; discriminate.
  - destruct n as [| n].
    + simpl. intros [= <-] [= <-]. symmetry. exact Hh.
    + change (nth_error (h :: consecutive deltaItem prev (cur :: tl)) (S n))
        with (nth_error (deltaItem prev cur :: consecutive deltaItem cur tl) n).
      change (nth_error (h :: consecutive deltaItem prev (cur :: tl)) (S (S n)))
        with (nth_error (deltaItem prev cur :: consecutive deltaItem cur tl)
                        (S n)).
      apply IH. reflexivity.
Qed.

Lemma consecutive_item x : forall prev rest,
  In x (consecutive deltaItem prev rest) ->
  exists p c, In c rest /\ (p = prev \/ In p rest) /\ x = deltaItem p c.
Proof.
  intros prev rest; revert prev.
  induction rest as [| cur tl IH]; intros prev; simpl; [tauto |].
  intros [<- | H].
  - exists prev, cur; auto.
  - destruct (IH _ H) as (p & c & Hc & Hp & ->).
    exists p, c; intuition.
Qed.

(** The rows that survive cleaning carry the result of [parseNum]. *)
Lemma cleaned_gdp data :
  Forall (fun r => isNaN (gdp r) = true \/ isFinite (gdp r) = true)
         (cleaned data).
Proof.
  apply Forall_forall. intros r H. unfold cleaned in H.
  apply filter_In in H as [H _]. apply in_map_iff in H as (raw & <- & _).
  apply parseNum_finite_or_nan.
Qed.

End Part000Facts.

(* ================================================================== *)
(** ** Chain continuity, bar heights and classification *)
(* ================================================================== *)

(** C2 (as amended).  In the bars that [draw] of script.js computes, each
    bar starts at the previous bar's end, a bar with a finite value ends at
    its start plus that value (the sum is rounded, so end minus start need
    not give the value back), and every bar after the first is an increase
    when its value is at least zero and a decrease when it is below zero.
    In the items of the earlier script each item starts at the previous
    item's end, and for every item after the first end minus start is the
    value and the sign of the value gives the kind. *)
Theorem C2_chain_and_heights (data : list RawRow) (name : jsstring) :
  (forall bars,
      Script.draw (Script.grouped data) name = Script.Bars bars ->
      (forall i a b,
          nth_error bars i = Some a -> nth_error bars (S i) = Some b ->
          strictEq (Script.start b) (Script.end_ a) = true)
      /\ (forall i c,
             nth_error bars i = Some c ->
             isFinite (Script.value (Script.it c)) = true ->
             strictEq (Script.end_ c)
                      (add (Script.start c) (Script.value (Script.it c)))
             = true)
      /\ (forall i c,
             nth_error bars (S i) = Some c ->
             (ge (Script.value (Script.it c)) zero = true ->
              Script.type (Script.it c) = Script.increase)
             /\ (lt (Script.value (Script.it c)) zero = true ->
                 Script.type (Script.it c) = Script.decrease)))
  /\ (forall items,
         Part000.drawForCountry (Part000.byCountry data) name
         = Part000.Bars items ->
         (forall i a b,
             nth_error items i = Some a -> nth_error items (S i) = Some b ->
             strictEq (Part000.start b) (Part000.end_ a) = true)
         /\ (forall i x,
                nth_error items (S i) = Some x ->
                strictEq (sub (Part000.end_ x) (Part000.start x))
                         (Part000.value x) = true
                /\ (ge (Part000.value x) zero = true ->
                    Part000.type x = Part000.increase)
                /\ (lt (Part000.value x) zero = true ->
                    Part000.type x = Part000.decrease))).
Proof.
  split.
  - intros bars Hdraw. unfold Script.draw in Hdraw.
    assert (Hbars : bars = Script.computed
                             (Script.buildWaterfall (Script.grouped data) name)).
    { destruct (Script.buildWaterfall _ name); [discriminate |].
      now injection Hdraw. }
    clear Hdraw. subst bars. unfold Script.computed. repeat split.
    + intros i a b Ha Hb.
      rewrite (computedFrom_chain _ _ _ _ Ha Hb).
      apply strictEq_refl.
      eapply computedFrom_not_nan; [| eapply nth_error_In; exact Ha].
      reflexivity.
    + intros i c Hc Hfin.
      eapply computedFrom_end;
        [| eapply nth_error_In; exact Hc | exact Hfin].
      reflexivity.
    + intros Hge.
      pose proof (map_nth_error Script.it _ _ H) as Hit.
      rewrite computedFrom_it, buildWaterfall_items in Hit.
      destruct (ScriptLoop.valid _ name) as [| first rest]; [discriminate |].
      simpl in Hit. apply nth_error_In, consecutive_type in Hit.
      rewrite Hit, Hge. reflexivity.
    + intros Hlt.
      pose proof (map_nth_error Script.it _ _ H) as Hit.
      rewrite computedFrom_it, buildWaterfall_items in Hit.
      destruct (ScriptLoop.valid _ name) as [| first rest]; [discriminate |].
      simpl in Hit. apply nth_error_In, consecutive_type in Hit.
      rewrite Hit, (lt_zero_not_ge _ Hlt). reflexivity.
  - intros items Hdraw. unfold Part000.drawForCountry in Hdraw.
    pose proof (group_get_Forall JSString.eqb Part000.country name
                  (cleaned_gdp data)) as Hgdp.
    fold (Part000.byCountry data) in Hgdp.
    set (rows := orEmpty (Map_get JSString.eqb (Part000.byCountry data) name))
      in *.
    assert (Hitems : items = Part000.computeWaterfall
                               (Array_sort Part000.byYear rows)).
    { destruct rows; [discriminate | now injection Hdraw]. }
    clear Hdraw. subst items. rewrite computeWaterfall_items.
    assert (Hsorted : Forall (fun r => isNaN (Part000.gdp r) = true
                                       \/ isFinite (Part000.gdp r) = true)
                             (Array_sort Part000.byYear rows)).
    { apply Forall_forall. intros r Hr. apply Array_sort_in in Hr.
      revert r Hr. now apply Forall_forall. }
    destruct (Array_sort Part000.byYear rows) as [| d0 rest].
    { split; intros i; intros; destruct i; discriminate. }
    split.
    + intros i a b Ha Hb.
      rewrite (consecutive_chain rest (Part000Loop.startItem d0) d0 i
                                 eq_refl Ha Hb).
      apply strictEq_refl.
      destruct i as [| i]; simpl in Ha.
      * injection Ha as <-. apply orElse_zero_not_nan.
      * apply nth_error_In, consecutive_item in Ha
          as (p & c & _ & _ & ->). apply orElse_zero_not_nan.
    + intros i x Hx. simpl in Hx.
      apply nth_error_In, consecutive_item in Hx as (p & c & Hc & Hp & ->).
      assert (Hfc : isFinite (orElse (Part000.gdp c) zero) = true).
      { apply orElse_zero_finite.
        apply (proj1 (Forall_forall _ _) Hsorted). now right. }
      assert (Hfp : isFinite (orElse (Part000.gdp p) zero) = true).
      { apply orElse_zero_finite.
        apply (proj1 (Forall_forall _ _) Hsorted).
        destruct Hp as [-> | Hp]; [now left | now right]. }
      cbn [Part000Loop.deltaItem Part000.end_ Part000.start Part000.value
           Part000.type].
      repeat split.
      * apply strictEq_refl, sub_finite_not_nan; assumption.
      * intros ->. reflexivity.
      * intros Hlt. rewrite (lt_zero_not_ge _ Hlt). reflexivity.
Qed.

(** On the table [Sample.fractions] the theorem applies to the bars and to
    the items of Chile. *)
Lemma C2_chain_and_heights_witness :
  exists bars a b items x y,
    Script.draw (Script.grouped Sample.fractions) (js "Chile")
    = Script.Bars bars
    /\ nth_error bars 1 = Some a /\ nth_error bars 2 = Some b
    /\ strictEq (Script.start b) (Script.end_ a) = true
    /\ strictEq (Script.end_ b)
                (add (Script.start b) (Script.value (Script.it b))) = true
    /\ Script.type (Script.it b) = Script.increase
    /\ Part000.drawForCountry (Part000.byCountry Sample.fractions) (js "Chile")
       = Part000.Bars items
    /\ nth_error items 1 = Some x /\ nth_error items 2 = Some y
    /\ strictEq (Part000.start y) (Part000.end_ x) = true
    /\ strictEq (sub (Part000.end_ y) (Part000.start y)) (Part000.value y)
       = true.
Proof.
  let v := eval vm_compute in
        (Script.computed
            (Script.buildWaterfall (Script.grouped Sample.fractions)
                                   (js "Chile"))) in
  pose (bars := v).
  let v := eval vm_compute in
        (Part000.computeWaterfall
            (Array_sort Part000.byYear
               (orEmpty (Map_get JSString.eqb
                           (Part000.byCountry Sample.fractions)
                           (js "Chile"))))) in
  pose (items := v).
  assert (Hs : Script.draw (Script.grouped Sample.fractions) (js "Chile")
               = Script.Bars bars) by (vm_compute; reflexivity).
  assert (Hp : Part000.drawForCountry (Part000.byCountry Sample.fractions)
                                      (js "Chile")
               = Part000.Bars items) by (vm_compute; reflexivity).
  destruct (C2_chain_and_heights Sample.fractions (js "Chile")) as [Cs Cp].
  destruct (Cs bars Hs) as (Hchain & Hend & Hkind).
  destruct (Cp items Hp) as (Pchain & Pdelta).
  exists bars. eexists. eexists. exists items. eexists. eexists.
  split; [exact Hs |].
  split; [reflexivity |]. split; [reflexivity |].
  split; [exact (Hchain 1%nat _ _ eq_refl eq_refl) |].
  split; [apply (Hend 2%nat _ eq_refl); reflexivity |].
  split; [apply (Hkind 1%nat _ eq_refl); reflexivity |].
  split; [exact Hp |].
  split; [reflexivity |]. split; [reflexivity |].
  split; [exact (Pchain 1%nat _ _ eq_refl eq_refl) |].
  exact (proj1 (Pdelta 1%nat _ eq_refl)).
Defined.

(** C2 as stated fails: for Chile in [Sample.fractions] the third bar of
    script.js starts at 0.09999999999999998 and ends at 0.29999999999999993
    with value 0.19999999999999998, and end minus start is
    0.19999999999999996. *)
Lemma C2_end_minus_start_differs :
  exists bars c,
    Script.draw (Script.grouped Sample.fractions) (js "Chile")
    = Script.Bars bars
    /\ nth_error bars 2 = Some c
    /\ Script.start c = Sample.num "0.09999999999999998"
    /\ Script.value (Script.it c) = Sample.num "0.19999999999999998"
    /\ Script.end_ c = Sample.num "0.29999999999999993"
    /\ sub (Script.end_ c) (Script.start c) = Sample.num "0.19999999999999996"
    /\ strictEq (sub (Script.end_ c) (Script.start c))
                (Script.value (Script.it c)) = false.
Proof.
  let v := eval vm_compute in
        (Script.computed
            (Script.buildWaterfall (Script.grouped Sample.fractions)
                                   (js "Chile"))) in
  pose (bars := v).
  exists bars. eexists.
  split; [vm_compute; reflexivity |].
  split; [reflexivity |].
  repeat split; vm_compute; reflexivity.
Qed.

(* ================================================================== *)
(** ** Invalid GDP values *)
(* ================================================================== *)

(** C1, at a row with an invalid GDP between two valid ones
    ([Sample.gap]: 100, nan, 300).  The earlier script charts the invalid
    row as a fall to zero followed by a rise from zero; script.js leaves the
    row out and charts one rise of 200 from 2000 to 2002. *)
Theorem C1_invalid_gdp_charted_as_zero :
  Part000.drawForCountry (Part000.byCountry Sample.gap) (js "Germany")
  = Part000.Bars
      [ {| Part000.type := Part000.start_; Part000.item_year := ofZ 2000;
           Part000.value := ofZ 100;
           Part000.start := zero; Part000.end_ := ofZ 100 |};
        {| Part000.type := Part000.decrease; Part000.item_year := ofZ 2001;
           Part000.value := ofZ (-100);
           Part000.start := ofZ 100; Part000.end_ := zero |};
        {| Part000.type := Part000.increase; Part000.item_year := ofZ 2002;
           Part000.value := ofZ 300;
           Part000.start := zero; Part000.end_ := ofZ 300 |} ]
  /\ Script.buildWaterfall (Script.grouped Sample.gap) (js "Germany")
     = [ {| Script.item_year := ofZ 2000; Script.value := ofZ 100;
            Script.type := Script.base |};
         {| Script.item_year := ofZ 2002; Script.value := ofZ 200;
            Script.type := Script.increase |} ].
Proof. split; vm_compute; reflexivity. Qed.

(** In script.js every item is built from rows with a valid GDP: the first
    from the first such row in year order, each later one from two
    neighbouring such rows. *)
Lemma Script_items_skip_invalid grouped country :
  Script.buildWaterfall grouped country =
  match ScriptLoop.valid grouped country with
  | [] => []
  | first :: rest =>
      ScriptLoop.baseItem first
      :: consecutive ScriptLoop.deltaItem first rest
  end
  /\ Forall (fun r => isNaN (Script.GDP r) = false)
            (ScriptLoop.valid grouped country).
Proof.
  split; [apply buildWaterfall_items |].
  apply Forall_forall. intros r. apply valid_not_nan.
Qed.

(* ================================================================== *)
(** ** The table of section 8 *)
(* ================================================================== *)

(** C3 (as amended).  On the rows (Germany, 2000, "1.000,5") and
    (Germany, 2001, "1100") the normaliser yields 1 and 1100: the text
    "1.000,5" becomes "1.000.5", of which [parseFloat] reads "1.000".  The
    waterfall is a base bar ending at 1 and an increase of 1099 ending at
    1100. *)
Theorem C3_germany_table :
  List.map Script.GDP (Script.rows Sample.germany) = [ofZ 1; ofZ 1100]
  /\ Script.draw (Script.grouped Sample.germany) (js "Germany")
     = Script.Bars
         [ {| Script.it := {| Script.item_year := ofZ 2000;
                              Script.value := ofZ 1;
                              Script.type := Script.base |};
              Script.start := zero; Script.end_ := ofZ 1;
              Script.cumulative := ofZ 1 |};
           {| Script.it := {| Script.item_year := ofZ 2001;
                              Script.value := ofZ 1099;
                              Script.type := Script.increase |};
              Script.start := ofZ 1; Script.end_ := ofZ 1100;
              Script.cumulative := ofZ 1100 |} ].
Proof. split; vm_compute; reflexivity. Qed.

(** C3 as stated fails: the normaliser does not yield 1000.5 for
    "1.000,5", and the base bar does not end at 1000.5. *)
Lemma C3_not_1000_5 :
  List.map Script.GDP (Script.rows Sample.germany)
  <> [Sample.num "1000.5"; Sample.num "1100"]
  /\ strictEq (parseNum (Some (js "1.000,5"))) (Sample.num "1000.5") = false
  /\ (forall bars b,
        Script.draw (Script.grouped Sample.germany) (js "Germany")
        = Script.Bars bars ->
        nth_error bars 0 = Some b ->
        strictEq (Script.end_ b) (Sample.num "1000.5") = false).
Proof.
  split; [| split].
  - vm_compute. discriminate.
  - vm_compute. reflexivity.
  - intros bars b Hd Hb. vm_compute in Hd. injection Hd as <-.
    injection Hb as <-. vm_compute. reflexivity.
Qed.

(* ================================================================== *)
(** ** The base bar *)
(* ================================================================== *)

Lemma rows_gdp data :
  Forall (fun r => isNaN (Script.GDP r) = true
                   \/ isFinite (Script.GDP r) = true)
         (Script.rows data).
Proof.
  apply Forall_forall. intros r H. unfold Script.rows in H.
  apply filter_In in H as [H _]. apply in_map_iff in H as (raw & <- & _).
  apply parseNum_finite_or_nan.
Qed.

(** C5.  For every table and country: when no row of the country has a
    valid GDP the waterfall is empty and [draw] shows the empty state;
    otherwise the bars begin with the one base bar, built from the first
    valid row in year order, from 0 to that row's GDP, which is also its
    cumulative value, and no later bar is a base bar. *)
Theorem C5_base_bar (data : list RawRow) (country : jsstring) :
  match ScriptLoop.valid (Script.grouped data) country with
  | [] =>
      Script.buildWaterfall (Script.grouped data) country = []
      /\ Script.draw (Script.grouped data) country = Script.NoData
  | first :: _ =>
      exists b rest,
        Script.draw (Script.grouped data) country = Script.Bars (b :: rest)
        /\ Script.type (Script.it b) = Script.base
        /\ Script.item_year (Script.it b) = Script.year first
        /\ Script.start b = zero
        /\ Script.end_ b = Script.GDP first
        /\ Script.cumulative b = Script.GDP first
        /\ Forall (fun c => Script.type (Script.it c) <> Script.base) rest
  end.
Proof.
  unfold Script.draw. rewrite buildWaterfall_items.
  destruct (ScriptLoop.valid (Script.grouped data) country)
    as [| first rest] eqn:Ev; [split; reflexivity |].
  assert (Hin : In first (ScriptLoop.valid (Script.grouped data) country))
    by (rewrite Ev; now left).
  assert (Hfin : isFinite (Script.GDP first) = true).
  { pose proof (valid_not_nan _ _ _ Hin) as Hn.
    apply valid_in_group in Hin.
    pose proof (group_get_Forall Script.keyEqb Script.country (Some country)
                  (rows_gdp data)) as HF.
    apply (proj1 (Forall_forall _ _) HF) in Hin.
    destruct Hin; congruence. }
  eexists. eexists. split; [reflexivity |].
  cbn [Script.it Script.start Script.end_ Script.cumulative
       ScriptLoop.baseItem Script.type Script.item_year Script.value].
  unfold Script.finiteOr0. rewrite Hfin.
  repeat split.
  apply Forall_forall. intros c Hc Hbase.
  apply (in_map Script.it) in Hc. rewrite computedFrom_it in Hc.
  apply consecutive_type in Hc. rewrite Hbase in Hc.
  destruct (ge _ zero); discriminate.
Qed.

(* ================================================================== *)
(** ** A change of exactly zero *)
(* ================================================================== *)

(** C6.  In both waterfall scripts an item that is not the first one and
    whose value is equal to zero (of either sign) is an increase. *)
Theorem C6_zero_delta_is_increase :
  (forall grouped country x,
      In x (Script.buildWaterfall grouped country) ->
      Script.type x <> Script.base ->
      strictEq (Script.value x) zero = true ->
      Script.type x = Script.increase)
  /\ (forall rows x,
         In x (Part000.computeWaterfall rows) ->
         Part000.type x <> Part000.start_ ->
         strictEq (Part000.value x) zero = true ->
         Part000.type x = Part000.increase).
Proof.
  split.
  - intros grouped country x Hx Hnb Hz.
    rewrite buildWaterfall_items in Hx.
    destruct (ScriptLoop.valid grouped country) as [| first rest];
      [contradiction |].
    destruct Hx as [<- | Hx]; [now elim Hnb |].
    rewrite (consecutive_type _ _ _ Hx), (eq_zero_ge _ Hz). reflexivity.
  - intros rows x Hx Hnb Hz.
    rewrite computeWaterfall_items in Hx.
    destruct rows as [| d0 rest]; [contradiction |].
    destruct Hx as [<- | Hx]; [now elim Hnb |].
    apply consecutive_item in Hx as (p & c & _ & _ & ->).
    cbn [Part000Loop.deltaItem Part000.type Part000.value] in *.
    rewrite (eq_zero_ge _ Hz). reflexivity.
Qed.

(** Peru in [Sample.flat] has the same GDP in two years. *)
Lemma C6_zero_delta_is_increase_witness :
  exists x y,
    nth_error (Script.buildWaterfall (Script.grouped Sample.flat) (js "Peru")) 1
    = Some x
    /\ Script.type x = Script.increase
    /\ nth_error (Part000.computeWaterfall (Part000.cleaned Sample.flat)) 1
       = Some y
    /\ Part000.type y = Part000.increase.
Proof.
  let v := eval vm_compute in
        (Script.buildWaterfall (Script.grouped Sample.flat) (js "Peru")) in
  pose (items := v).
  let v := eval vm_compute in
        (Part000.computeWaterfall (Part000.cleaned Sample.flat)) in
  pose (items' := v).
  assert (Hs : Script.buildWaterfall (Script.grouped Sample.flat) (js "Peru")
               = items) by (vm_compute; reflexivity).
  assert (Hp : Part000.computeWaterfall (Part000.cleaned Sample.flat)
               = items') by (vm_compute; reflexivity).
  rewrite Hs, Hp. eexists. eexists.
  split; [reflexivity |]. split.
  - apply (proj1 C6_zero_delta_is_increase
                 (Script.grouped Sample.flat) (js "Peru")).
    + rewrite Hs. right. left. reflexivity.
    + discriminate.
    + reflexivity.
  - split; [reflexivity |].
    apply (proj2 C6_zero_delta_is_increase (Part000.cleaned Sample.flat)).
    + rewrite Hp. right. left. reflexivity.
    + discriminate.
    + reflexivity.
Defined.

(* ================================================================== *)
(** ** Countries without data *)
(* ================================================================== *)

Lemma eqb_eq (a b : jsstring) : JSString.eqb a b = true <-> a = b.
Proof.
  revert b; induction a as [| x a IH]; intros [| y b]; simpl;
    try (split; [discriminate | discriminate]); [tauto |].
  rewrite andb_true_iff, N.eqb_eq, IH. split.
  - intros [-> ->]; reflexivity.
  - intros [= -> ->]; auto.
Qed.

Section GroupAbsent.
Variables A K : Type.
Variable keyEqb : K -> K -> bool.
Variable key : A -> K.
Variable k : K.


End GroupAbsent.



(* ================================================================== *)
(** ** The numeric normaliser *)
(* ================================================================== *)

Section ParseNumFacts.

(** Replacing every match by the empty string removes the matches. *)
Lemma replaceAll_remove cls s :
  replaceAll cls [] s = filter (fun c => negb (cls c)) s.
Proof.
  induction s as [| c s IH]; simpl; [reflexivity |].
  destruct (cls c); simpl; congruence.
Qed.

Lemma replaceAll_comma s :
  replaceAll isComma (js ".") s = Spec.commaToPoint s.
Proof.
  unfold Spec.commaToPoint.
  induction s as [| c s IH]; [reflexivity |].
  cbn [replaceAll List.map]. rewrite IH. unfold isComma.
  destruct (c =? 44)%N; reflexivity.
Qed.

Lemma notNumeric_spec c : notNumeric c = negb (Spec.numericChar c).
Proof.
  unfold notNumeric, Spec.numericChar. f_equal.
  let l := eval vm_compute in (js "0123456789eE+.-") in
  change (js "0123456789eE+.-") with l.
  cbn [existsb]. unfold isDigit. rewrite orb_false_r.
  apply eq_iff_eq_true.
  rewrite ?orb_true_iff, ?andb_true_iff, ?N.leb_le, ?N.eqb_eq. lia.
Qed.

Lemma lowerChar_matches c p :
  p = 110%N \/ p = 97%N -> N.eqb (lowerChar c) p = eqCI p c.
Proof.
  unfold eqCI.
  intros [-> | ->];
    [change (canonicalize 110%N) with 78%N
    | change (canonicalize 97%N) with 65%N];
    unfold lowerChar, canonicalize, isUpper, isLower;
    repeat match goal with
           | |- context [N.leb ?a ?b] => destruct (N.leb_spec a b)
           end; cbn [andb];
    match goal with
    | |- N.eqb ?a ?b = N.eqb ?x ?y =>
        destruct (N.eqb_spec a b), (N.eqb_spec x y)
    end; try reflexivity; lia.
Qed.

(** The comparison [v.toLowerCase() === "nan"] ignores case, and nothing
    else. *)
Lemma lower_is_nan v :
  JSString.eqb (toLowerCase v) (js "nan") = matchesCI (js "nan") v.
Proof.
  let l := eval vm_compute in (js "nan") in change (js "nan") with l.
  destruct v as [| a [| b [| c [| d v]]]]; simpl; try reflexivity;
    rewrite ?(@lowerChar_matches _ 110%N), ?(@lowerChar_matches _ 97%N)
      by auto; rewrite ?andb_true_r, ?andb_false_r; reflexivity.
Qed.

End ParseNumFacts.

(** C4.  For every string, [parseNum] computes what section 4.1 describes:
    trim; [NaN] for the empty string and for "nan" in any case; remove white
    space; turn commas into points; keep only digits, e, E, +, . and -;
    [parseFloat]; [NaN] unless the result is finite.  The result is [NaN]
    or a finite Number. *)
Theorem C4_parseNum_steps (s : jsstring) :
  parseNum (Some s) = Spec.normalize s
  /\ (isNaN (parseNum (Some s)) = true \/ isFinite (parseNum (Some s)) = true).
Proof.
  split; [| apply parseNum_finite_or_nan].
  unfold parseNum, Spec.normalize, Spec.equalIgnoringCase.
  rewrite lower_is_nan.
  destruct (trim s) as [| c t] eqn:Et; [reflexivity |].
  cbn [JSString.eqb orb].
  destruct (matchesCI (js "nan") (c :: t)); [reflexivity |].
  rewrite replaceAll_remove, replaceAll_comma.
  fold (Spec.removeWhitespace (c :: t)).
  rewrite replaceAll_remove.
  rewrite (filter_ext (fun c => negb (notNumeric c)) Spec.numericChar)
    by (intros a; rewrite notNumeric_spec; apply negb_involutive).
  fold (Spec.keepNumeric (Spec.commaToPoint (Spec.removeWhitespace (c :: t)))).
  destruct (parseFloat _); reflexivity.
Qed.

(* ================================================================== *)
(** ** Column inference *)
(* ================================================================== *)

Section KeyFacts.

Lemma prefixCI_nonempty p pat k :
  prefixCI (p :: pat) k = true -> truthyStr (Some k) = true.
Proof. destruct k; [discriminate | reflexivity]. Qed.

Lemma containsCI_nonempty p pat k :
  containsCI (p :: pat) k = true -> truthyStr (Some k) = true.
Proof. destruct k; [discriminate | reflexivity]. Qed.

Lemma matchesCI_nonempty p pat k :
  matchesCI (p :: pat) k = true -> truthyStr (Some k) = true.
Proof. destruct k; [discriminate | reflexivity]. Qed.

(** [find(test) || other] is the key found, whenever the test only accepts
    non-empty names. *)
Lemma orStr_find (test : jsstring -> bool) keys other :
  (forall k, test k = true -> truthyStr (Some k) = true) ->
  orStr (List.find test keys) other =
  match List.find test keys with
  | Some k => Some k
  | None => other
  end.
Proof.
  intros Htest. unfold orStr.
  destruct (List.find test keys) as [k |] eqn:E; [| reflexivity].
  apply find_some in E as [_ E]. now rewrite (Htest k E).
Qed.

Lemma find_ext_in (A : Type) (f g : A -> bool) (l : list A) :
  (forall x, In x l -> f x = g x) -> List.find f l = List.find g l.
Proof.
  induction l as [| x l IH]; intros H; simpl; [reflexivity |].
  rewrite (H x) by now left. destruct (g x); auto with datatypes.
Qed.

End KeyFacts.

(** C8 (as amended).  The selection is a function of the list of column
    names.  The country column is the first name that contains "country",
    case ignored, and otherwise the second name.  The year column is the
    first name that contains "year", otherwise the first that contains "yr",
    otherwise none.  The GDP column is the first name equal to "gdp", case
    ignored, otherwise the first that contains "gdp", otherwise none. *)
Theorem C8_column_inference (keys : list jsstring) :
  Script.countryKey keys
  = Spec.selectBySubstring (js "country") (Spec.Positional 1) keys
  /\ Script.yearKey keys
     = match List.find (containsCI (js "year")) keys with
       | Some k => Some k
       | None => List.find (containsCI (js "yr")) keys
       end
  /\ Script.gdpKey keys
     = match List.find (matchesCI (js "GDP")) keys with
       | Some k => Some k
       | None => List.find (containsCI (js "gdp")) keys
       end
  /\ (forall keys',
         keys' = keys ->
         (Script.countryKey keys', Script.yearKey keys', Script.gdpKey keys')
         = (Script.countryKey keys, Script.yearKey keys, Script.gdpKey keys)).
Proof.
  split; [| split; [| split]].
  - unfold Script.countryKey, Spec.selectBySubstring, Spec.defaultKey.
    apply orStr_find. apply containsCI_nonempty.
  - unfold Script.yearKey. rewrite orStr_find by apply containsCI_nonempty.
    destruct (List.find (containsCI (js "year")) keys) eqn:E; [reflexivity |].
    apply find_ext_in. intros k Hk.
    rewrite (find_none _ _ E k Hk). apply orb_false_r.
  - unfold Script.gdpKey. apply orStr_find. apply matchesCI_nonempty.
  - intros keys' ->. reflexivity.
Qed.

(** C8 as stated fails: neither the year column nor the GDP column is "the
    first name containing the pattern, else a fixed default".  For the year,
    [a; b] selects nothing while [Yr] selects its only name; for the GDP,
    [GDP growth; GDP] selects the second name although the first one
    contains "gdp". *)
Lemma C8_no_fixed_default :
  (~ exists d, forall keys,
        Script.yearKey keys = Spec.selectBySubstring (js "year") d keys)
  /\ (~ exists d, forall keys,
          Script.gdpKey keys = Spec.selectBySubstring (js "gdp") d keys)
  /\ Script.gdpKey [js "GDP growth"; js "GDP"] = Some (js "GDP")
  /\ Script.gdpKey [js "Country"; js "Jahr"; js "Wert"] = None.
Proof.
  split; [| split; [| split]].
  - intros [d H].
    pose proof (H [js "a"; js "b"]) as H1.
    pose proof (H [js "Yr"]) as H2.
    destruct d as [p | name].
    + destruct p as [| [| p]]; vm_compute in H1, H2; discriminate.
    + vm_compute in H1. discriminate.
  - intros [d H].
    pose proof (H [js "GDP growth"; js "GDP"]) as H1.
    vm_compute in H1. discriminate.
  - vm_compute. reflexivity.
  - vm_compute. reflexivity.
Qed.

(** The header of section 8 and its reading. *)
Lemma C8_column_inference_witness :
  (Script.countryKey [js "Country Name"; js "Year"; js "GDP"],
   Script.yearKey [js "Country Name"; js "Year"; js "GDP"],
   Script.gdpKey [js "Country Name"; js "Year"; js "GDP"])
  = (Script.countryKey [js "Country Name"; js "Year"; js "GDP"],
     Script.yearKey [js "Country Name"; js "Year"; js "GDP"],
     Script.gdpKey [js "Country Name"; js "Year"; js "GDP"])
  /\ Script.countryKey [js "Country Name"; js "Year"; js "GDP"]
     = Some (js "Country Name").
Proof.
  destruct (C8_column_inference [js "Country Name"; js "Year"; js "GDP"])
    as (Hc & _ & _ & Hdet).
  split; [exact (Hdet _ eq_refl) |].
  rewrite Hc. vm_compute. reflexivity.
Defined.

(* ================================================================== *)
(** ** The two builders on one series *)
(* ================================================================== *)

Section TwoBuilders.
Import Part000Loop.

Lemma filter_all (A : Type) (p : A -> bool) (l : list A) :
  Forall (fun x => p x = true) l -> filter p l = l.
Proof.
  induction 1 as [| x l Hx _ IH]; simpl; [reflexivity |].
  now rewrite Hx, IH.
Qed.

Lemma isFinite_not_nan x : isFinite x = true -> isNaN x = false.
Proof. destruct x; simpl; congruence. Qed.

(** [x || 0] does not change a difference of finite Numbers, up to the sign
    of a zero. *)
Lemma sub_orElse x y :
  isFinite x = true -> isFinite y = true ->
  strictEq (sub x y) (sub (orElse x zero) (orElse y zero)) = true.
Proof.
  intros Hx Hy.
  destruct x as [sx | sx | | sx mx ex]; try discriminate;
    destruct y as [sy | sy | | sy my ey]; try discriminate.
  - destruct sx, sy; reflexivity.
  - apply (@strictEq_refl (S754_finite (negb sy) my ey)). reflexivity.
  - apply (@strictEq_refl (S754_finite sx mx ex)). reflexivity.
  - apply strictEq_refl, sub_finite_not_nan; reflexivity.
Qed.

(** Equal Numbers have the same sign test. *)
Lemma ge_zero_strictEq a b : strictEq a b = true -> ge a zero = ge b zero.
Proof.
  destruct a as [sa | sa | | sa ma ea], b as [sb | sb | | sb mb eb];
    try discriminate; try reflexivity;
    destruct sa, sb; try discriminate; reflexivity.
Qed.

Lemma deltaItem_same prev cur :
  isFinite (Script.GDP prev) = true -> isFinite (Script.GDP cur) = true ->
  sameItem (ScriptLoop.deltaItem prev cur)
           (deltaItem (ofScript prev) (ofScript cur)).
Proof.
  intros Hp Hc. unfold sameItem, ScriptLoop.deltaItem, deltaItem, ofScript.
  cbn [Script.type Script.value Script.item_year Part000.type Part000.value
       Part000.item_year Part000.gdp Part000.year].
  pose proof (sub_orElse _ _ Hc Hp) as He.
  rewrite <- (ge_zero_strictEq _ _ He).
  repeat split; [| exact He].
  destruct (ge _ zero); reflexivity.
Qed.

Lemma consecutive_same rest : forall first,
  isFinite (Script.GDP first) = true ->
  Forall (fun r => isFinite (Script.GDP r) = true) rest ->
  Forall2 sameItem
          (consecutive ScriptLoop.deltaItem first rest)
          (consecutive deltaItem (ofScript first) (List.map ofScript rest)).
Proof.
  induction rest as [| cur tl IH]; intros first Hf Hrest; simpl;
    [constructor |].
  inversion Hrest; subst.
  constructor; [apply deltaItem_same | apply IH]; assumption.
Qed.

Lemma computedFrom_Forall2 (R : Script.Item -> Part000.Item -> Prop) items :
  forall xs i cum,
    Forall2 R items xs ->
    Forall2 (fun b x => R (Script.it b) x) (Script.computedFrom i cum items) xs.
Proof.
  induction items as [| a items IH]; intros xs i cum H; inversion H; subst;
    simpl; constructor; auto.
Qed.

End TwoBuilders.

(** C9 (as amended).  On a series whose GDP values are all finite the two
    builders produce the same bars in kind, year and value: the first bar is
    the baseline in both (called "base" in script.js, "start" in the earlier
    script) and begins at 0 and ends at the first GDP in both.  For the later
    bars the start and end of script.js are running sums, which are rounded,
    and need not be equal to the GDP values that the earlier script uses. *)
Theorem C9_builders_agree
        (grouped : GroupMap Script.Row (option jsstring))
        (name : jsstring) (series : list Script.Row) :
  Map_get Script.keyEqb grouped (Some name) = Some series ->
  Forall (fun r => isFinite (Script.GDP r) = true) series ->
  let bars := Script.computed (Script.buildWaterfall grouped name) in
  let items := Part000.computeWaterfall
                 (Array_sort Part000.byYear
                             (List.map Part000Loop.ofScript series)) in
  Forall2 (fun b x => Part000Loop.sameItem (Script.it b) x) bars items
  /\ match bars, items with
     | b :: _, x :: _ =>
         strictEq (Script.start b) (Part000.start x) = true
         /\ strictEq (Script.end_ b) (Part000.end_ x) = true
     | [], [] => True
     | _, _ => False
     end.
Proof.
  intros Hget Hfin bars items. subst bars items.
  rewrite buildWaterfall_items. unfold ScriptLoop.valid.
  rewrite Hget. cbn [orEmpty].
  rewrite (Array_sort_map Part000Loop.ofScript Script.byYear Part000.byYear)
    by reflexivity.
  assert (Hsorted : Forall (fun r => isFinite (Script.GDP r) = true)
                           (Array_sort Script.byYear series)).
  { apply Forall_forall. intros r Hr. apply Array_sort_in in Hr.
    revert r Hr. now apply Forall_forall. }
  rewrite filter_all
    by (eapply Forall_impl; [| exact Hsorted];
        intros r Hr; cbv beta; now rewrite (isFinite_not_nan _ Hr)).
  rewrite computeWaterfall_items.
  destruct (Array_sort Script.byYear series) as [| first rest];
    [split; [constructor | exact I] |].
  inversion Hsorted as [| ? ? Hfirst Hrest]; subst.
  cbn [List.map]. unfold Script.computed. cbn [Script.computedFrom].
  split.
  - constructor.
    + unfold Part000Loop.sameItem. cbn. repeat split.
      apply strictEq_refl, isFinite_not_nan, Hfirst.
    + apply computedFrom_Forall2, consecutive_same; assumption.
  - cbn. unfold Script.finiteOr0. rewrite Hfirst. split; [reflexivity |].
    destruct (Script.GDP first) as [s | s | | s m e]; try discriminate;
      [reflexivity |].
    apply (@strictEq_refl (S754_finite s m e)). reflexivity.
Qed.

(** The series of Chile in [Sample.fractions]. *)
Lemma C9_builders_agree_witness :
  Forall2 (fun b x => Part000Loop.sameItem (Script.it b) x)
          (Script.computed
             (Script.buildWaterfall (Script.grouped Sample.fractions)
                                    (js "Chile")))
          (Part000.computeWaterfall
             (Array_sort Part000.byYear
                (List.map Part000Loop.ofScript
                          (Script.rows Sample.fractions)))).
Proof.
  refine (proj1 (@C9_builders_agree (Script.grouped Sample.fractions)
                   (js "Chile") (Script.rows Sample.fractions) _ _)).
  - vm_compute. reflexivity.
  - apply Forall_forall. intros r Hr. vm_compute in Hr.
    destruct Hr as [<- | [<- | [<- | []]]]; reflexivity.
Defined.

(** C9 as stated fails: for Chile in [Sample.fractions] (GDP 1, 0.1, 0.3)
    the second bar of script.js ends at 1 + (0.1 - 1), which is
    0.09999999999999998, and the second item of the earlier script ends at
    0.1. *)
Lemma C9_ends_differ :
  exists bars items b x,
    Script.draw (Script.grouped Sample.fractions) (js "Chile")
    = Script.Bars bars
    /\ Part000.drawForCountry (Part000.byCountry Sample.fractions) (js "Chile")
       = Part000.Bars items
    /\ nth_error bars 1 = Some b
    /\ nth_error items 1 = Some x
    /\ Script.end_ b = Sample.num "0.09999999999999998"
    /\ Part000.end_ x = Sample.num "0.1"
    /\ strictEq (Script.end_ b) (Part000.end_ x) = false.
Proof.
  let v := eval vm_compute in
        (Script.computed
           (Script.buildWaterfall (Script.grouped Sample.fractions)
                                  (js "Chile"))) in
  pose (bars := v).
  let v := eval vm_compute in
        (Part000.computeWaterfall
           (Array_sort Part000.byYear
              (orEmpty (Map_get JSString.eqb
                          (Part000.byCountry Sample.fractions)
                          (js "Chile"))))) in
  pose (items := v).
  exists bars, items. eexists. eexists.
  split; [vm_compute; reflexivity |].
  split; [vm_compute; reflexivity |].
  split; [reflexivity |]. split; [reflexivity |].
  repeat split; vm_compute; reflexivity.
Qed.

(* ================================================================== *)
(** ** Row cleaning *)
(* ================================================================== *)

Section DigitFacts.

Lemma takeWhile_all p ds : forallb p ds = true -> takeWhile p ds = ds.
Proof.
  induction ds as [| c ds IH]; simpl; [reflexivity |].
  intros H. apply andb_true_iff in H as [Hc H]. now rewrite Hc, IH.
Qed.

Lemma dropWhile_all p ds : forallb p ds = true -> dropWhile p ds = [].
Proof.
  induction ds as [| c ds IH]; simpl; [reflexivity |].
  intros H. apply andb_true_iff in H as [Hc H]. now rewrite Hc, IH.
Qed.

Lemma isDigit_range c : isDigit c = true <-> (48 <= c <= 57)%N.
Proof. unfold isDigit. rewrite andb_true_iff, !N.leb_le. tauto. Qed.

Lemma digit_not_sign c : isDigit c = true -> isSign c = false.
Proof.
  rewrite isDigit_range. intros H. unfold isSign.
  destruct (N.eqb_spec c 43), (N.eqb_spec c 45); simpl; auto; lia.
Qed.

Lemma digit_not_space c : isDigit c = true -> isWhiteSpace c = false.
Proof.
  rewrite isDigit_range. intros H.
  destruct (isWhiteSpace c) eqn:E; [| reflexivity].
  unfold isWhiteSpace in E.
  rewrite ?orb_true_iff, ?andb_true_iff, ?N.leb_le, ?N.eqb_eq in E. lia.
Qed.

Lemma sign_not_space c : isSign c = true -> isWhiteSpace c = false.
Proof.
  unfold isSign. rewrite orb_true_iff, !N.eqb_eq.
  intros [-> | ->]; reflexivity.
Qed.

Lemma digits_not_infinity c r :
  isDigit c = true -> prefix infinityLit (c :: r) = false.
Proof.
  rewrite isDigit_range. intros H.
  let l := eval vm_compute in infinityLit in change infinityLit with l.
  cbn [prefix]. destruct (N.eqb_spec 73 c); [lia | reflexivity].
Qed.

(** A run of digits is a decimal literal with exponent 0. *)
Lemma scanUnsignedDecimal_digits c r :
  forallb isDigit (c :: r) = true ->
  scanUnsignedDecimal (c :: r)
  = Some (digitsValue 10 digitVal (c :: r), 0, []).
Proof.
  intros H. unfold scanUnsignedDecimal.
  rewrite (takeWhile_all _ _ H), (dropWhile_all _ _ H).
  cbn [scanExponent length]. rewrite app_nil_r. reflexivity.
Qed.

Lemma ofDecimal_not_nan neg m : isNaN (ofDecimal neg m 0) = false.
Proof.
  destruct m as [| p]; simpl; [reflexivity |].
  apply binary_round_not_nan.
Qed.

Lemma scanDecimal_integer c r :
  (if isSign c then r else c :: r) <> [] ->
  forallb isDigit (if isSign c then r else c :: r) = true ->
  exists x, scanDecimal (c :: r) = Some (x, []) /\ isNaN x = false.
Proof.
  unfold scanDecimal.
  destruct (isSign c) eqn:Es; intros Hne Hds.
  - destruct r as [| d r]; [congruence |].
    pose proof Hds as Hd. cbn [forallb] in Hd.
    apply andb_true_iff in Hd as [Hd _].
    rewrite (digits_not_infinity d r Hd), (scanUnsignedDecimal_digits _ _ Hds).
    eexists; split; [reflexivity | apply ofDecimal_not_nan].
  - pose proof Hds as Hd. cbn [forallb] in Hd.
    apply andb_true_iff in Hd as [Hd _].
    rewrite (digits_not_infinity c r Hd), (scanUnsignedDecimal_digits _ _ Hds).
    eexists; split; [reflexivity | apply ofDecimal_not_nan].
Qed.

(** Unary plus reads every integer. *)
Lemma StringToNumber_integer s :
  Spec.parsesAsInteger s = true -> isNaN (StringToNumber s) = false.
Proof.
  unfold Spec.parsesAsInteger, StringToNumber.
  destruct (trim s) as [| c r]; [discriminate |].
  intros H.
  destruct (nonDecimalLiteral (c :: r)); [apply ofZ_not_nan |].
  destruct (scanDecimal_integer c r) as (x & -> & Hx); auto.
  - destruct (isSign c); destruct r; try discriminate; congruence.
  - destruct (isSign c); destruct r; try discriminate; auto.
Qed.

(** Digits do not start with the prefix [0x]. *)
Lemma radix_of_digits u :
  forallb isDigit u = true ->
  match u with
  | 48%N :: k :: r0 =>
      if ((k =? 120) || (k =? 88))%N
      then (16%N, isHexDigit, hexVal, r0)
      else (10%N, isDigit, digitVal, u)
  | _ => (10%N, isDigit, digitVal, u)
  end = (10%N, isDigit, digitVal, u).
Proof.
  intros Hds.
  destruct u as [| a u']; [reflexivity |].
  destruct u' as [| k r0].
  - destruct a as [| p]; [reflexivity |].
    do 6 (destruct p as [p | p |]; try reflexivity).
  - assert (Hk : (48 <= k <= 57)%N).
    { cbn [forallb] in Hds. apply andb_true_iff in Hds as [_ Hds].
      apply andb_true_iff in Hds as [Hk _]. now apply isDigit_range. }
    assert (Hx : ((k =? 120) || (k =? 88))%N = false).
    { destruct (N.eqb_spec k 120), (N.eqb_spec k 88); try lia; reflexivity. }
    destruct a as [| p]; [reflexivity |].
    do 6 (destruct p as [p | p |]; try reflexivity).
    now rewrite Hx.
Qed.

Lemma parseInt_digits neg u :
  forallb isDigit u = true -> u <> [] ->
  isNaN (let '(radix, ok, val, ds) :=
           match u with
           | 48%N :: k :: r0 =>
               if ((k =? 120) || (k =? 88))%N
               then (16%N, isHexDigit, hexVal, r0)
               else (10%N, isDigit, digitVal, u)
           | _ => (10%N, isDigit, digitVal, u)
           end in
         match takeWhile ok ds with
         | [] => NaN
         | z =>
             match digitsValue radix val z with
             | N0 => S754_zero neg
             | Npos p => binary_round prec emax neg p 0
             end
         end) = false.
Proof.
  intros Hds Hne.
  rewrite (radix_of_digits u Hds), (takeWhile_all _ _ Hds).
  destruct u as [| d u]; [congruence |].
  destruct (digitsValue 10 digitVal (d :: u)); [reflexivity |].
  apply binary_round_not_nan.
Qed.

(** [parseInt] reads every integer. *)
Lemma parseInt_integer c r :
  (if isSign c then r else c :: r) <> [] ->
  forallb isDigit (if isSign c then r else c :: r) = true ->
  isNaN (parseInt (c :: r)) = false.
Proof.
  intros Hne Hds. unfold parseInt, trimStart.
  assert (Hsp : isWhiteSpace c = false).
  { destruct (isSign c) eqn:Es; [now apply sign_not_space |].
    cbn [forallb] in Hds. apply andb_true_iff in Hds as [Hd _].
    now apply digit_not_space. }
  cbn [dropWhile]. rewrite Hsp.
  destruct (isSign c).
  - exact (@parseInt_digits (c =? 45)%N r Hds Hne).
  - exact (@parseInt_digits false (c :: r) Hds Hne).
Qed.

End DigitFacts.

Lemma orElse_NaN_isNaN p :
  strictEq p zero = false -> isNaN (orElse p NaN) = isNaN p.
Proof. destruct p as [s | s | | s m e]; simpl; auto; discriminate. Qed.

Lemma truthyStr_nonempty s : truthyStr (Some s) = true <-> s <> [].
Proof. destruct s; simpl; split; congruence. Qed.

(** C7 (as amended).  For every row of the table:

    - script.js keeps the row exactly when its country field is a non-empty
      string and its year field, if not blank, converts to a Number other
      than [NaN] under unary plus; a row without a country is dropped, and
      every integer year converts;
    - the earlier script keeps the row exactly when its trimmed country is
      non-empty and [parseInt] reads a Number from its year, if that Number
      is not 0; a row without a country is dropped, and [parseInt] reads
      every integer year.

    What happens to a blank year in script.js and to the year 0 in the
    earlier script is not part of the statement. *)
Theorem C7_row_cleaning (data : list RawRow) (r : RawRow) :
  In r data ->
  let keys := Object_keys (hd [] data) in
  ((forall s, getProp r (Script.yearKey keys) = Some s -> trim s <> []) ->
   (In (Script.mkRow keys r) (Script.rows data) <->
    truthyStr (getProp r (Script.countryKey keys)) = true
    /\ isNaN (ToNumber (getProp r (Script.yearKey keys))) = false))
  /\ (truthyStr (getProp r (Script.countryKey keys)) = false ->
      ~ In (Script.mkRow keys r) (Script.rows data))
  /\ (forall s,
         getProp r (Script.yearKey keys) = Some s ->
         Spec.parsesAsInteger s = true ->
         isNaN (ToNumber (getProp r (Script.yearKey keys))) = false)
  /\ (strictEq (parseInt (Part000Loop.yearText keys r)) zero = false ->
      (In (Part000.mkRow keys r) (Part000.cleaned data) <->
       Part000.country (Part000.mkRow keys r) <> []
       /\ isNaN (parseInt (Part000Loop.yearText keys r)) = false))
  /\ (Part000.country (Part000.mkRow keys r) = [] ->
      ~ In (Part000.mkRow keys r) (Part000.cleaned data))
  /\ (forall s,
         getProp r (Part000.yearKey keys) = Some s ->
         Spec.parsesAsInteger s = true ->
         isNaN (parseInt (Part000Loop.yearText keys r)) = false).
Proof.
  intros Hr keys.
  assert (Hs : In (Script.mkRow keys r) (Script.rows data) <->
               Script.keep (Script.mkRow keys r) = true).
  { unfold Script.rows. fold keys. rewrite filter_In. split; [tauto |].
    intros H; split; [now apply in_map | exact H]. }
  assert (Hp : In (Part000.mkRow keys r) (Part000.cleaned data) <->
               Part000.keep (Part000.mkRow keys r) = true).
  { unfold Part000.cleaned. fold keys. rewrite filter_In. split; [tauto |].
    intros H; split; [now apply in_map | exact H]. }
  split; [| split; [| split; [| split; [| split]]]].
  - intros _. rewrite Hs. unfold Script.keep.
    cbn [Script.country Script.year Script.mkRow].
    rewrite andb_true_iff, negb_true_iff. reflexivity.
  - intros Hc. rewrite Hs. unfold Script.keep.
    cbn [Script.country Script.mkRow]. rewrite Hc. discriminate.
  - intros s -> Hint. now apply StringToNumber_integer.
  - intros Hnz. rewrite Hp. unfold Part000.keep.
    change (Part000.year (Part000.mkRow keys r))
      with (orElse (parseInt (Part000Loop.yearText keys r)) NaN).
    rewrite (orElse_NaN_isNaN _ Hnz), andb_true_iff, negb_true_iff.
    rewrite truthyStr_nonempty. reflexivity.
  - intros Hc. rewrite Hp. unfold Part000.keep. rewrite Hc. discriminate.
  - intros s Hs' Hint. unfold Part000Loop.yearText. rewrite Hs'.
    unfold Spec.parsesAsInteger in Hint.
    destruct s as [| a s]; [discriminate |].
    cbn [orStr truthyStr].
    destruct (trim (a :: s)) as [| c t]; [discriminate |].
    apply parseInt_integer.
    + destruct (isSign c); destruct t; try discriminate; congruence.
    + destruct (isSign c); destruct t; try discriminate; auto.
Qed.

(** The first row of the table of section 8 is kept by both scripts. *)
Lemma C7_row_cleaning_witness :
  In (Script.mkRow (Object_keys (hd [] Sample.germany))
                   (Sample.row "Germany" "2000" "1.000,5"))
     (Script.rows Sample.germany)
  /\ In (Part000.mkRow (Object_keys (hd [] Sample.germany))
                       (Sample.row "Germany" "2000" "1.000,5"))
        (Part000.cleaned Sample.germany).
Proof.
  destruct (@C7_row_cleaning Sample.germany
              (Sample.row "Germany" "2000" "1.000,5"))
    as (Hs & _ & Hint & Hp & _ & Hint').
  { left. reflexivity. }
  split.
  - apply Hs.
    + intros s E. vm_compute in E. injection E as <-. vm_compute. discriminate.
    + split; [vm_compute; reflexivity |].
      apply (Hint (js "2000")); vm_compute; reflexivity.
  - apply Hp.
    + vm_compute. reflexivity.
    + split; [vm_compute; discriminate |].
      apply (Hint' (js "2000")); vm_compute; reflexivity.
Defined.

(** C7 as stated fails: script.js keeps the rows (Germany, "2000.5", "1")
    and (Germany, ".5", "2"), with the years 2000.5 and 0.5, although neither
    year is an integer, and [parseInt] reads no number at all from ".5". *)
Lemma C7_fractional_year_kept :
  Spec.parsesAsInteger (js "2000.5") = false
  /\ Spec.parsesAsInteger (js ".5") = false
  /\ parseInt (js ".5") = NaN
  /\ List.map Script.year (Script.rows Sample.fractionalYear)
     = [Sample.num "2000.5"; Sample.num "0.5"].
Proof. repeat split; vm_compute; reflexivity. Qed.

(* ================================================================== *)
(** ** Sorting by year *)
(* ================================================================== *)

Section RoundingFacts.
Import NumOrder.

Lemma shr_1_div2 mrs :
  0 <= shr_m mrs -> shr_m (shr_1 mrs) = shr_m mrs / 2.
Proof.
  destruct mrs as [m r s]; destruct m as [| [p | p |] | p];
    cbn [shr_1 shr_m]; intros H; try lia; try reflexivity.
  - apply Z.div_unique with (r := 1); [lia |].
    change (Zpos p~1) with (2 * Zpos p + 1). lia.
  - apply Z.div_unique with (r := 0); [lia |].
    change (Zpos p~0) with (2 * Zpos p). lia.
Qed.

(** [p] right shifts divide the mantissa by [2^p]. *)
Lemma iter_shr_1_div p : forall mrs,
  0 <= shr_m mrs ->
  0 <= shr_m (iter_pos shr_1 p mrs)
  /\ shr_m (iter_pos shr_1 p mrs) = shr_m mrs / 2 ^ Zpos p.
Proof.
  induction p as [p IH | p IH |]; intros mrs H; cbn [iter_pos].
  - pose proof (shr_1_nonneg _ H) as H1.
    destruct (IH _ H1) as [H2 E2]. destruct (IH _ H2) as [H3 E3].
    split; [exact H3 |].
    rewrite E3, E2, shr_1_div2 by exact H.
    rewrite !Z.div_div by lia. f_equal.
    change (Zpos p~1) with (2 * Zpos p + 1).
    rewrite Z.pow_add_r, Z.pow_mul_r by lia.
    change (2 ^ 2) with 4. rewrite Z.pow_1_r.
    replace (4 ^ Zpos p) with (2 ^ Zpos p * 2 ^ Zpos p); [lia |].
    rewrite <- Z.pow_add_r by lia.
    replace (Zpos p + Zpos p) with (2 * Zpos p) by lia.
    now rewrite Z.pow_mul_r by lia.
  - destruct (IH _ H) as [H2 E2]. destruct (IH _ H2) as [H3 E3].
    split; [exact H3 |].
    rewrite E3, E2, Z.div_div by lia. f_equal.
    change (Zpos p~0) with (2 * Zpos p).
    rewrite <- Z.pow_add_r by lia. f_equal. lia.
  - split; [now apply shr_1_nonneg |].
    rewrite shr_1_div2 by exact H. reflexivity.
Qed.

(** A positive number has at least [2^(digits - 1)] units. *)
Lemma digits2_pos_lower m : 2 ^ (Zpos (digits2_pos m) - 1) <= Zpos m.
Proof.
  induction m as [m IH | m IH |]; cbn [digits2_pos].
  - rewrite Pos2Z.inj_succ. change (Zpos m~1) with (2 * Zpos m + 1).
    replace (Z.succ (Zpos (digits2_pos m)) - 1)
      with (Z.succ (Zpos (digits2_pos m) - 1)) by lia.
    rewrite Z.pow_succ_r by lia. lia.
  - rewrite Pos2Z.inj_succ. change (Zpos m~0) with (2 * Zpos m).
    replace (Z.succ (Zpos (digits2_pos m)) - 1)
      with (Z.succ (Zpos (digits2_pos m) - 1)) by lia.
    rewrite Z.pow_succ_r by lia. lia.
  - simpl. lia.
Qed.

(** Truncation to the format keeps a positive mantissa positive, as long as
    the exponent is at least [emin]: there is no underflow to zero. *)
Lemma shr_fexp_positive m e l :
  0 < m -> emin <= e ->
  0 < shr_m (fst (shr_fexp prec emax m e l))
  /\ emin <= snd (shr_fexp prec emax m e l).
Proof.
  intros Hm He. unfold shr_fexp, shr.
  assert (H0 : shr_m (shr_record_of_loc m l) = m)
    by (destruct l as [| []]; reflexivity).
  destruct m as [| p | p]; try lia.
  cbn [Zdigits2].
  destruct (fexp prec emax (Zpos (digits2_pos p) + e) - e) as [| n | n] eqn:En;
    cbn [fst snd]; try (rewrite H0; split; lia).
  assert (Hn : Zpos n = Zpos (digits2_pos p) - prec).
  { unfold fexp, SpecFloat.emin in En. unfold emin, SpecFloat.emin in He. lia. }
  destruct (iter_shr_1_div n (shr_record_of_loc (Zpos p) l)) as [_ E];
    [rewrite H0; lia |].
  rewrite E, H0. split; [| lia].
  apply Z.div_str_pos. split; [apply Z.pow_pos_nonneg; lia |].
  eapply Z.le_trans; [| apply digits2_pos_lower].
  apply Z.pow_le_mono_r; unfold prec in *; lia.
Qed.

Lemma round_nearest_even_positive m l : 0 < m -> 0 < round_nearest_even m l.
Proof.
  intros Hm; destruct l as [| []]; simpl; try lia.
  destruct (Z.even m); lia.
Qed.

(** The result of rounding carries the sign it was given, and is not a zero
    when the mantissa is positive and the exponent at least [emin]. *)
Lemma binary_round_aux_sign s m e l :
  0 < m -> emin <= e ->
  binary_round_aux prec emax s m e l = S754_infinity s
  \/ exists m' e', binary_round_aux prec emax s m e l = S754_finite s m' e'.
Proof.
  intros Hm He. unfold binary_round_aux.
  destruct (shr_fexp_positive l Hm He) as [H1 E1].
  destruct (shr_fexp prec emax m e l) as [mrs' e']. cbn [fst snd] in H1, E1.
  destruct (shr_fexp_positive loc_Exact
              (round_nearest_even_positive (loc_of_shr_record mrs') H1) E1)
    as [H2 E2].
  destruct (shr_fexp prec emax _ e' loc_Exact) as [mrs'' e''].
  cbn [fst snd] in H2, E2.
  destruct (shr_m mrs'') as [| p | p]; try lia.
  destruct (e'' <=? emax - prec); [right | left]; eauto.
Qed.

End RoundingFacts.

Section OrderFacts.
Import NumOrder.

Lemma emin_value : emin = -1074.
Proof. reflexivity. Qed.

Lemma iter_xO m d : Zpos (Pos.iter xO m d) = Zpos m * 2 ^ Zpos d.
Proof.
  induction d as [| d IH] using Pos.peano_ind.
  - cbn [Pos.iter]. change (Zpos m~0) with (2 * Zpos m). lia.
  - rewrite Pos.iter_succ, Pos2Z.inj_succ, Z.pow_succ_r by lia.
    change (Zpos (Pos.iter xO m d)~0) with (2 * Zpos (Pos.iter xO m d)).
    rewrite IH. lia.
Qed.

(** Alignment to a smaller exponent multiplies the mantissa. *)
Lemma shl_align_fst m e ez :
  ez <= e -> Zpos (fst (shl_align m e ez)) = Zpos m * 2 ^ (e - ez).
Proof.
  intros H. unfold shl_align.
  destruct (ez - e) as [| d | d] eqn:E; cbn [fst]; try lia.
  - replace (e - ez) with 0 by lia. lia.
  - rewrite iter_xO. f_equal. f_equal. lia.
Qed.

Lemma shl_align_snd m e ez : ez <= e -> snd (shl_align m e ez) = ez.
Proof.
  intros H. unfold shl_align.
  destruct (ez - e) as [| d | d] eqn:E; cbn [snd]; lia.
Qed.

Lemma shr_fexp_exp m e l : emin <= snd (shr_fexp prec emax m e l).
Proof.
  unfold shr_fexp, shr, emin.
  destruct (fexp prec emax (Zdigits2 m + e) - e) as [| n | n] eqn:En;
    cbn [snd]; unfold fexp in En; lia.
Qed.

(** Every finite result of rounding has an exponent of at least [emin]. *)
Lemma binary_round_aux_inRange s m e l :
  inRange (binary_round_aux prec emax s m e l) = true.
Proof.
  unfold binary_round_aux.
  destruct (shr_fexp prec emax m e l) as [mrs' e'].
  pose proof (shr_fexp_exp
                (round_nearest_even (shr_m mrs') (loc_of_shr_record mrs'))
                e' loc_Exact) as H.
  destruct (shr_fexp prec emax _ e' loc_Exact) as [mrs'' e''].
  cbn [snd] in H.
  destruct (shr_m mrs''); try reflexivity.
  destruct (e'' <=? emax - prec); [| reflexivity].
  cbn [inRange]. now apply Z.leb_le.
Qed.

Lemma binary_round_inRange s m e :
  inRange (binary_round prec emax s m e) = true.
Proof.
  unfold binary_round. destruct (shl_align m e _).
  apply binary_round_aux_inRange.
Qed.

Lemma binary_normalize_inRange m e sz :
  inRange (binary_normalize prec emax m e sz) = true.
Proof. destruct m; simpl; auto using binary_round_inRange. Qed.

(** Rounding a positive integer multiple of [2^e], [e] at least [emin],
    gives a Number of the given sign that is not a zero. *)
Lemma lt_zero_sign x s :
  x = S754_infinity s \/ (exists m e, x = S754_finite s m e) ->
  lt x zero = s.
Proof. intros [-> | (m & e & ->)]; destruct s; reflexivity. Qed.

Lemma binary_round_lt_zero s m e :
  emin <= e -> lt (binary_round prec emax s m e) zero = s.
Proof.
  intros He. unfold binary_round, shl_align.
  destruct (fexp prec emax (Zpos (digits2_pos m) + e) - e) as [| d | d] eqn:E;
    apply lt_zero_sign, binary_round_aux_sign; try lia.
  unfold fexp, emin. lia.
Qed.

(** The sign of a difference is the sign of the exact difference. *)
Lemma binary_normalize_lt_zero d e :
  emin <= e -> lt (binary_normalize prec emax d e false) zero = (d <? 0).
Proof.
  intros He. destruct d as [| p | p]; cbn [binary_normalize].
  - reflexivity.
  - now rewrite binary_round_lt_zero.
  - now rewrite binary_round_lt_zero.
Qed.

Lemma scaled_finite s m e :
  emin <= e ->
  (s = true -> scaled (S754_finite s m e) < 0)
  /\ (s = false -> 0 < scaled (S754_finite s m e)).
Proof.
  intros He. cbn [scaled].
  assert (0 < 2 ^ (e - emin)) by (apply Z.pow_pos_nonneg; lia).
  destruct s; cbn [cond_Zopp]; split; intros; try discriminate; nia.
Qed.

(** The comparator [(a, b) => a - b] is negative exactly when [a] is below
    [b]. *)
Lemma sub_lt_zero a b :
  sortable a = true -> sortable b = true ->
  lt (sub a b) zero = negb (leNum b a).
Proof.
  unfold sortable.
  destruct a as [sa | sa | | sa ma ea]; try discriminate;
    destruct b as [sb | sb | | sb mb eb]; try discriminate;
    cbn [isNaN negb andb inRange]; intros Ha Hb;
    try (destruct sa, sb; reflexivity);
    try (destruct sa; reflexivity); try (destruct sb; reflexivity).
  - apply Z.leb_le in Hb.
    destruct (scaled_finite sb mb Hb) as [Hn Hp].
    unfold sub, SFsub, leNum. change (scaled (S754_zero sa)) with 0.
    destruct sb.
    + specialize (Hn eq_refl).
      replace (scaled (S754_finite true mb eb) <=? 0) with true
        by (symmetry; apply Z.leb_le; lia).
      reflexivity.
    + specialize (Hp eq_refl).
      replace (scaled (S754_finite false mb eb) <=? 0) with false
        by (symmetry; apply Z.leb_gt; lia).
      reflexivity.
  - apply Z.leb_le in Ha.
    destruct (scaled_finite sa ma Ha) as [Hn Hp].
    unfold sub, SFsub, leNum. change (scaled (S754_zero sb)) with 0.
    destruct sa.
    + specialize (Hn eq_refl).
      replace (0 <=? scaled (S754_finite true ma ea)) with false
        by (symmetry; apply Z.leb_gt; lia).
      reflexivity.
    + specialize (Hp eq_refl).
      replace (0 <=? scaled (S754_finite false ma ea)) with true
        by (symmetry; apply Z.leb_le; lia).
      reflexivity.
  - apply Z.leb_le in Ha, Hb.
    unfold sub, SFsub.
    rewrite binary_normalize_lt_zero by lia.
    rewrite !shl_align_fst by lia.
    unfold leNum, scaled.
    set (ez := Z.min ea eb).
    assert (HP : 0 < 2 ^ (ez - emin)) by (apply Z.pow_pos_nonneg; lia).
    assert (Ea : 2 ^ (ea - emin) = 2 ^ (ea - ez) * 2 ^ (ez - emin)).
    { rewrite <- Z.pow_add_r by lia. f_equal. lia. }
    assert (Eb : 2 ^ (eb - emin) = 2 ^ (eb - ez) * 2 ^ (ez - emin)).
    { rewrite <- Z.pow_add_r by lia. f_equal. lia. }
    rewrite Ea, Eb.
    generalize dependent (2 ^ (ez - emin)). intros P HP _ _.
    generalize (2 ^ (ea - ez)) (2 ^ (eb - ez)). intros Pa Pb.
    destruct sa, sb; cbn [cond_Zopp];
      match goal with
      | |- (?d <? 0) = negb (?x <=? ?y) =>
          destruct (Z.ltb_spec d 0), (Z.leb_spec x y)
      end; try reflexivity; exfalso; nia.
Qed.

Lemma leNum_trans a b c :
  leNum a b = true -> leNum b c = true -> leNum a c = true.
Proof.
  unfold leNum.
  destruct a as [sa | sa | | sa ma ea]; try discriminate;
    destruct b as [sb | sb | | sb mb eb]; try discriminate;
    destruct c as [sc | sc | | sc mc ec]; try discriminate;
    try destruct sa; try destruct sb; try destruct sc;
    try discriminate; try reflexivity;
    rewrite !Z.leb_le; lia.
Qed.

Lemma leNum_total a b :
  isNaN a = false -> isNaN b = false -> leNum a b = false -> leNum b a = true.
Proof.
  unfold leNum.
  destruct a as [sa | sa | | sa ma ea]; try discriminate;
    destruct b as [sb | sb | | sb mb eb]; try discriminate;
    try destruct sa; try destruct sb;
    try discriminate; try reflexivity;
    intros _ _; rewrite Z.leb_le, Z.leb_gt; lia.
Qed.

End OrderFacts.

Section SortedByKey.
Import NumOrder.
Variable A : Type.
Variable key : A -> double.

Local Notation "'byKey'" := (fun a b : A => sub (key a) (key b)).
Local Notation "'ordered'" := (fun a b : A => leNum (key a) (key b) = true).

Lemma sortable_not_nan x : sortable x = true -> isNaN x = false.
Proof. unfold sortable. destruct x; simpl; congruence. Qed.

Lemma insertSorted_ordered x l :
  sortable (key x) = true ->
  Forall (fun y => sortable (key y) = true) l ->
  StronglySorted ordered l ->
  StronglySorted ordered (insertSorted byKey x l).
Proof.
  intros Hx Hl Hs. induction Hs as [| y tl Htl IH Hy]; cbn [insertSorted].
  - repeat constructor.
  - inversion Hl as [| ? ? Hky Hltl]; subst.
    cbv beta. rewrite (sub_lt_zero _ _ Hx Hky).
    destruct (leNum (key y) (key x)) eqn:E; cbn [negb].
    + constructor; [now apply IH |].
      apply Forall_forall. intros z Hz.
      apply (Permutation_in _ (insertSorted_perm byKey x tl)) in Hz.
      destruct Hz as [<- | Hz]; [exact E |].
      revert z Hz. now apply Forall_forall.
    + assert (Hxy : leNum (key x) (key y) = true).
      { apply leNum_total; auto using sortable_not_nan. }
      constructor; [now constructor |].
      constructor; [exact Hxy |].
      eapply Forall_impl; [| exact Hy].
      intros z Hz. eapply leNum_trans; eauto.
Qed.

(** Sorting with the comparator [(a, b) => key(a) - key(b)] puts the rows in
    ascending order of their keys. *)
Lemma Array_sort_ordered l :
  Forall (fun y => sortable (key y) = true) l ->
  StronglySorted ordered (Array_sort byKey l).
Proof.
  unfold Array_sort.
  assert (H0 : StronglySorted ordered []) by constructor.
  assert (F0 : Forall (fun y => sortable (key y) = true) (@nil A))
    by constructor.
  revert H0 F0. generalize (@nil A) as acc.
  induction l as [| x l IH]; intros acc Hacc Facc Hl; cbn [fold_left]; auto.
  inversion Hl; subst. apply IH; auto.
  - now apply insertSorted_ordered.
  - apply Forall_forall. intros z Hz.
    apply (Permutation_in _ (insertSorted_perm byKey x acc)) in Hz.
    destruct Hz as [<- | Hz]; auto.
    revert z Hz. now apply Forall_forall.
Qed.

Lemma filter_ordered p l :
  StronglySorted ordered l -> StronglySorted ordered (filter p l).
Proof.
  induction 1 as [| y tl Htl IH Hy]; cbn [filter]; [constructor |].
  destruct (p y); [| exact IH].
  constructor; [exact IH |].
  apply Forall_forall. intros z Hz. apply filter_In in Hz as [Hz _].
  revert z Hz. now apply Forall_forall.
Qed.

End SortedByKey.

Section YearsInRange.
Import NumOrder.

Lemma ofDecimal_inRange neg m e : inRange (ofDecimal neg m e) = true.
Proof.
  destruct m as [| p]; cbn [ofDecimal]; [reflexivity |].
  destruct (0 <=? e); [apply binary_round_inRange |].
  unfold SFdiv.
  destruct (SFdiv_core_binary prec emax _ 0 _ 0) as [[mz ez] lz].
  apply binary_round_aux_inRange.
Qed.

Lemma scanDecimal_inRange s x r :
  scanDecimal s = Some (x, r) -> inRange x = true.
Proof.
  unfold scanDecimal.
  destruct (match s with
            | [] => (false, s)
            | c :: r0 => if isSign c then ((c =? 45)%N, r0) else (false, s)
            end) as [neg u].
  destruct (prefix infinityLit u); [intros [= <- _]; reflexivity |].
  destruct (scanUnsignedDecimal u) as [[[m e] r'] |]; [| discriminate].
  intros [= <- _]. apply ofDecimal_inRange.
Qed.

(** The Number that unary plus reads from a string is in range. *)
Lemma ToNumber_inRange v : inRange (ToNumber v) = true.
Proof.
  destruct v as [s |]; [| reflexivity].
  unfold ToNumber, StringToNumber.
  destruct (trim s) as [| c t]; [reflexivity |].
  destruct (nonDecimalLiteral (c :: t));
    [apply binary_normalize_inRange |].
  destruct (scanDecimal (c :: t)) as [[x [| d r]] |] eqn:E; try reflexivity.
  eapply scanDecimal_inRange; eauto.
Qed.

Lemma rows_year_sortable data :
  Forall (fun r => sortable (Script.year r) = true) (Script.rows data).
Proof.
  apply Forall_forall. intros r H. unfold Script.rows in H.
  apply filter_In in H as [H Hk]. apply in_map_iff in H as (raw & <- & _).
  unfold Script.keep in Hk. apply andb_true_iff in Hk as [_ Hk].
  unfold sortable. rewrite Hk. apply ToNumber_inRange.
Qed.

End YearsInRange.

(** In script.js the rows with a valid GDP stand in ascending order of year:
    the base bar belongs to the earliest year with a valid GDP. *)
Lemma Script_valid_by_year data country :
  StronglySorted
    (fun a b => NumOrder.leNum (Script.year a) (Script.year b) = true)
    (ScriptLoop.valid (Script.grouped data) country).
Proof.
  unfold ScriptLoop.valid. apply filter_ordered.
  apply (Array_sort_ordered Script.year).
  apply Forall_forall. intros r Hr.
  pose proof (group_get_Forall Script.keyEqb Script.country (Some country)
                (rows_year_sortable data)) as HF.
  revert r Hr. now apply Forall_forall.
Qed.

Lemma Script_base_is_earliest data country first rest :
  ScriptLoop.valid (Script.grouped data) country = first :: rest ->
  Forall (fun r => NumOrder.leNum (Script.year first) (Script.year r) = true)
         rest.
Proof.
  intros E. pose proof (Script_valid_by_year data country) as H.
  rewrite E in H. now inversion H.
Qed.

(* ================================================================== *)
(** ** Further properties of [parseNum] *)
(* ================================================================== *)

Section ParseNumMore.

Lemma parseNum_tail s :
  parseNum (Some s) =
  match trim s with
  | [] => NaN
  | _ => if matchesCI (js "nan") (trim s) then NaN
         else parseNumTail (trim s)
  end.
Proof.
  unfold parseNum, parseNumTail. rewrite lower_is_nan.
  destruct (trim s) as [| c t]; [reflexivity |].
  cbn [JSString.eqb orb]. reflexivity.
Qed.

Lemma Forall_dropWhile (P : char -> Prop) p l :
  Forall P l -> Forall P (dropWhile p l).
Proof.
  induction 1 as [| c l Hc Hl IH]; simpl; [constructor |].
  destruct (p c); [exact IH | now constructor].
Qed.

Lemma Forall_trim (P : char -> Prop) s : Forall P s -> Forall P (trim s).
Proof.
  intros H. unfold trim, trimEnd, trimStart.
  apply Forall_rev, Forall_dropWhile, Forall_rev, Forall_dropWhile, H.
Qed.

Lemma Forall_takeWhile (P : char -> Prop) p l :
  Forall P l -> Forall P (takeWhile p l).
Proof.
  induction 1 as [| c l Hc Hl IH]; simpl; [constructor |].
  destruct (p c); now constructor.
Qed.

Lemma takeWhile_none p l :
  Forall (fun c => p c = false) l -> takeWhile p l = [].
Proof. intros [| c l' Hc _]; simpl; [| rewrite Hc]; reflexivity. Qed.

Lemma dropWhile_none p l :
  Forall (fun c => p c = false) l -> dropWhile p l = l.
Proof. intros [| c l' Hc _]; simpl; [| rewrite Hc]; reflexivity. Qed.

Lemma Forall_tl (P : char -> Prop) c l : Forall P (c :: l) -> Forall P l.
Proof. now inversion 1. Qed.

(** A text without digits and without the letter I holds no number. *)
Lemma parseFloat_no_digit u :
  Forall (fun c => isDigit c = false) u ->
  Forall (fun c => c <> 73%N) u ->
  parseFloat u = NaN.
Proof.
  intros Hd Hi. unfold parseFloat.
  assert (Hd' := Forall_dropWhile isWhiteSpace Hd).
  assert (Hi' := Forall_dropWhile isWhiteSpace Hi).
  fold (trimStart u) in Hd', Hi'.
  generalize dependent (trimStart u). clear u Hd Hi. intros t Hd Hi.
  unfold scanDecimal.
  assert (Hw : forall w,
             Forall (fun c => isDigit c = false) w ->
             Forall (fun c => c <> 73%N) w ->
             prefix infinityLit w = false
             /\ scanUnsignedDecimal w = None).
  { intros w Hwd Hwi. split.
    - let l := eval vm_compute in infinityLit in change infinityLit with l.
      destruct w as [| c w]; [reflexivity |]. cbn [prefix].
      inversion Hwi; subst.
      destruct (N.eqb_spec 73 c); [congruence | reflexivity].
    - unfold scanUnsignedDecimal.
      rewrite (takeWhile_none _ Hwd), (dropWhile_none _ Hwd).
      destruct w as [| c w]; [reflexivity |].
      destruct (N.eqb c dot); [| reflexivity].
      rewrite (takeWhile_none _ (Forall_tl Hwd)). reflexivity. }
  destruct t as [| c t].
  - destruct (Hw [] Hd Hi) as [-> ->]. reflexivity.
  - destruct (isSign c).
    + destruct (Hw t (Forall_tl Hd) (Forall_tl Hi)) as [-> ->]. reflexivity.
    + destruct (Hw (c :: t) Hd Hi) as [-> ->]. reflexivity.
Qed.

Lemma notNumeric_I c : notNumeric c = false -> c <> 73%N.
Proof. intros H ->. discriminate. Qed.

Lemma Forall_replaceAll_comma (P : char -> Prop) s :
  P 46%N -> Forall P s -> Forall P (replaceAll isComma (js ".") s).
Proof.
  intros Hp. induction 1 as [| c l Hc Hl IH]; cbn [replaceAll];
    [constructor |].
  destruct (isComma c); [| now constructor].
  change (js ".") with [46%N]. now constructor.
Qed.

Lemma Forall_replaceAll_remove (P : char -> Prop) cls s :
  Forall P s -> Forall P (replaceAll cls [] s).
Proof.
  induction 1 as [| c l Hc Hl IH]; cbn [replaceAll]; [constructor |].
  destruct (cls c); [exact IH | now constructor].
Qed.

Lemma replaceAll_removed cls s :
  Forall (fun c => cls c = false) (replaceAll cls [] s).
Proof.
  induction s as [| c s IH]; cbn [replaceAll]; [constructor |].
  destruct (cls c) eqn:E; [exact IH | now constructor].
Qed.

Lemma parseNumTail_no_digit v :
  Forall (fun c => isDigit c = false) v -> parseNumTail v = NaN.
Proof.
  intros H. unfold parseNumTail.
  rewrite parseFloat_no_digit; [reflexivity | |].
  - apply Forall_replaceAll_remove, Forall_replaceAll_comma;
      [reflexivity |].
    now apply Forall_replaceAll_remove.
  - eapply Forall_impl; [| apply replaceAll_removed].
    intros c. apply notNumeric_I.
Qed.

End ParseNumMore.

(** X1.  A field without any digit is a missing value: [parseNum] returns
    [NaN] for it, whatever else it holds. *)
Theorem parseNum_without_digit (s : jsstring) :
  Forall (fun c => isDigit c = false) s -> parseNum (Some s) = NaN.
Proof.
  intros H. rewrite parseNum_tail.
  pose proof (Forall_trim H) as Ht.
  destruct (trim s) as [| c t]; [reflexivity |].
  destruct (matchesCI (js "nan") (c :: t)); [reflexivity |].
  now apply parseNumTail_no_digit.
Qed.

(** The fields "n/a", "-" and "e+." have no digit. *)
Lemma parseNum_without_digit_witness :
  parseNum (Some (js "n/a")) = NaN
  /\ parseNum (Some (js " - ")) = NaN
  /\ parseNum (Some (js "e+.")) = NaN.
Proof.
  split; [| split]; apply parseNum_without_digit; repeat constructor.
Defined.

Section ParseNumShape.

Lemma eqCI_n c : eqCI 110%N c = true -> c = 78%N \/ c = 110%N.
Proof.
  unfold eqCI. change (canonicalize 110%N) with 78%N.
  unfold canonicalize, isLower. rewrite N.eqb_eq.
  destruct (N.leb_spec 97 c), (N.leb_spec c 122); cbn [andb]; lia.
Qed.

Lemma eqCI_a c : eqCI 97%N c = true -> c = 65%N \/ c = 97%N.
Proof.
  unfold eqCI. change (canonicalize 97%N) with 65%N.
  unfold canonicalize, isLower. rewrite N.eqb_eq.
  destruct (N.leb_spec 97 c), (N.leb_spec c 122); cbn [andb]; lia.
Qed.

(** The text "nan", in any case, has no digit. *)
Lemma nan_no_digit v :
  matchesCI (js "nan") v = true -> Forall (fun c => isDigit c = false) v.
Proof.
  let l := eval vm_compute in (js "nan") in change (js "nan") with l.
  destruct v as [| a [| b [| c [| d v]]]]; cbn [matchesCI]; try discriminate;
    intros H; apply andb_true_iff in H as [Ha H]; try discriminate;
    apply andb_true_iff in H as [Hb H]; try discriminate;
    apply andb_true_iff in H as [Hc H]; try discriminate.
  apply eqCI_n in Ha, Hc. apply eqCI_a in Hb.
  destruct Ha as [-> | ->], Hb as [-> | ->], Hc as [-> | ->];
    repeat constructor.
Qed.

(** The early return of [parseNum] changes no result: the steps after it
    give [NaN] for the empty text and for "nan". *)
Lemma parseNum_is_tail s : parseNum (Some s) = parseNumTail (trim s).
Proof.
  rewrite parseNum_tail.
  destruct (trim s) as [| c t] eqn:E.
  - symmetry. apply parseNumTail_no_digit. constructor.
  - destruct (matchesCI (js "nan") (c :: t)) eqn:En; [| reflexivity].
    symmetry. apply parseNumTail_no_digit, nan_no_digit, En.
Qed.

Lemma removeWhitespace_dropWhile l :
  Spec.removeWhitespace (dropWhile isWhiteSpace l) = Spec.removeWhitespace l.
Proof.
  unfold Spec.removeWhitespace.
  induction l as [| c l IH]; simpl; [reflexivity |].
  destruct (isWhiteSpace c) eqn:E; simpl; [exact IH | now rewrite E].
Qed.

Lemma removeWhitespace_trim s :
  Spec.removeWhitespace (trim s) = Spec.removeWhitespace s.
Proof.
  unfold trim, trimEnd, trimStart.
  rewrite <- (removeWhitespace_dropWhile s).
  generalize (dropWhile isWhiteSpace s) as l. intros l.
  pose proof (removeWhitespace_dropWhile (rev l)) as H.
  unfold Spec.removeWhitespace in *.
  now rewrite filter_rev, H, filter_rev, rev_involutive.
Qed.

Lemma removeWhitespace_clean s :
  Forall (fun c => isWhiteSpace c = false) (Spec.removeWhitespace s).
Proof.
  apply Forall_forall. intros c H. apply filter_In in H as [_ H].
  now apply negb_true_iff.
Qed.

Lemma trim_clean u :
  Forall (fun c => isWhiteSpace c = false) u -> trim u = u.
Proof.
  intros H. unfold trim, trimEnd, trimStart.
  rewrite (dropWhile_none _ H), (dropWhile_none _ (Forall_rev H)).
  apply rev_involutive.
Qed.

Lemma removeWhitespace_idem s :
  Spec.removeWhitespace (Spec.removeWhitespace s) = Spec.removeWhitespace s.
Proof.
  apply filter_all. eapply Forall_impl; [| apply removeWhitespace_clean].
  intros c H. cbv beta. now rewrite H.
Qed.

(** [parseNumTail] looks at its text with the white space removed. *)
Lemma parseNumTail_whitespace a b :
  Spec.removeWhitespace a = Spec.removeWhitespace b ->
  parseNumTail a = parseNumTail b.
Proof.
  intros H. unfold parseNumTail. rewrite !replaceAll_remove.
  fold (Spec.removeWhitespace a) (Spec.removeWhitespace b).
  now rewrite H.
Qed.

Lemma dropWhile_map (f : char -> char) p l :
  (forall c, p (f c) = p c) ->
  dropWhile p (List.map f l) = List.map f (dropWhile p l).
Proof.
  intros H. induction l as [| c l IH]; simpl; [reflexivity |].
  rewrite H. destruct (p c); [exact IH | reflexivity].
Qed.

Lemma trim_map (f : char -> char) s :
  (forall c, isWhiteSpace (f c) = isWhiteSpace c) ->
  trim (List.map f s) = List.map f (trim s).
Proof.
  intros H. unfold trim, trimEnd, trimStart.
  rewrite (@dropWhile_map f isWhiteSpace _ H), <- map_rev,
    (@dropWhile_map f isWhiteSpace _ H), map_rev.
  reflexivity.
Qed.

Lemma point_whitespace c :
  isWhiteSpace (if (c =? 44)%N then 46%N else c) = isWhiteSpace c.
Proof. destruct (N.eqb_spec c 44); [subst |]; reflexivity. Qed.

Lemma commaToPoint_idem s :
  Spec.commaToPoint (Spec.commaToPoint s) = Spec.commaToPoint s.
Proof.
  unfold Spec.commaToPoint. rewrite map_map. apply map_ext.
  intros c. destruct (N.eqb_spec c 44); [reflexivity |].
  destruct (N.eqb_spec c 44); congruence.
Qed.

Lemma removeWhitespace_commaToPoint s :
  Spec.removeWhitespace (Spec.commaToPoint s)
  = Spec.commaToPoint (Spec.removeWhitespace s).
Proof.
  unfold Spec.removeWhitespace, Spec.commaToPoint.
  induction s as [| c s IH]; [reflexivity |].
  cbn [filter List.map]. rewrite point_whitespace.
  destruct (isWhiteSpace c); cbn [negb List.map]; rewrite IH; reflexivity.
Qed.

End ParseNumShape.

(** X2.  White space anywhere in a field is ignored: removing it from the
    field does not change what [parseNum] returns. *)
Theorem parseNum_ignores_whitespace (s : jsstring) :
  parseNum (Some (Spec.removeWhitespace s)) = parseNum (Some s).
Proof.
  rewrite !parseNum_is_tail.
  rewrite (trim_clean (removeWhitespace_clean s)).
  apply parseNumTail_whitespace.
  now rewrite removeWhitespace_idem, removeWhitespace_trim.
Qed.

(** X3.  A comma is read as a decimal point: replacing the commas of a field
    by points does not change what [parseNum] returns. *)
Theorem parseNum_comma_is_point (s : jsstring) :
  parseNum (Some (Spec.commaToPoint s)) = parseNum (Some s).
Proof.
  rewrite !parseNum_is_tail. unfold Spec.commaToPoint at 1.
  rewrite trim_map by apply point_whitespace.
  fold (Spec.commaToPoint (trim s)).
  unfold parseNumTail. rewrite !replaceAll_remove, !replaceAll_comma.
  fold (Spec.removeWhitespace (Spec.commaToPoint (trim s)))
       (Spec.removeWhitespace (trim s)).
  now rewrite removeWhitespace_commaToPoint, commaToPoint_idem.
Qed.

(* ================================================================== *)
(** ** Groups as tables *)
(* ================================================================== *)

Section GroupLookup.
Variables A K : Type.
Variable keyEqb : K -> K -> bool.
Variable key : A -> K.
Hypothesis keyEqb_eq : forall a b, keyEqb a b = true <-> a = b.

Lemma keyEqb_refl a : keyEqb a a = true.
Proof. now apply keyEqb_eq. Qed.

Lemma keyEqb_neq a b : keyEqb a b = false <-> a <> b.
Proof.
  destruct (keyEqb a b) eqn:E.
  - apply keyEqb_eq in E. split; [discriminate | contradiction].
  - split; [| reflexivity]. intros _ H. apply keyEqb_eq in H. congruence.
Qed.

(** Adding a row to the map adds it to the group of its key and to no
    other. *)
Lemma groupAdd_lookup x m k :
  orEmpty (Map_get keyEqb (groupAdd keyEqb key x m) k)
  = orEmpty (Map_get keyEqb m k)
    ++ (if keyEqb (key x) k then [x] else []).
Proof.
  induction m as [| [k' l] tl IH]; cbn [groupAdd Map_get].
  - destruct (keyEqb (key x) k); reflexivity.
  - destruct (keyEqb k' (key x)) eqn:E; cbn [Map_get fst snd].
    + apply keyEqb_eq in E. subst k'.
      destruct (keyEqb (key x) k); cbn [orEmpty];
        [reflexivity | now rewrite app_nil_r].
    + destruct (keyEqb k' k) eqn:E'; [| exact IH].
      apply keyEqb_eq in E'. subst k'.
      replace (keyEqb (key x) k) with false.
      * cbn [orEmpty]. now rewrite app_nil_r.
      * symmetry. apply keyEqb_neq. apply keyEqb_neq in E. congruence.
Qed.

(** [d3.group(rows, key).get(k)] holds the rows with key [k], in the order
    of the table. *)
Lemma d3_group_lookup rows k :
  orEmpty (Map_get keyEqb (d3_group keyEqb key rows) k)
  = filter (fun x => keyEqb (key x) k) rows.
Proof.
  unfold d3_group.
  change (filter (fun x => keyEqb (key x) k) rows)
    with (orEmpty (Map_get keyEqb (@nil (K * list A)) k)
          ++ filter (fun x => keyEqb (key x) k) rows).
  generalize (@nil (K * list A)) as m.
  induction rows as [| x rows IH]; intros m; cbn [fold_left filter].
  - now rewrite app_nil_r.
  - rewrite IH, groupAdd_lookup, <- app_assoc.
    destruct (keyEqb (key x) k); reflexivity.
Qed.

Lemma groupAdd_fst_in x m k :
  In k (List.map fst (groupAdd keyEqb key x m)) ->
  k = key x \/ In k (List.map fst m).
Proof.
  induction m as [| [k' l] tl IH]; cbn [groupAdd List.map fst].
  - intros [H | []]. now left.
  - destruct (keyEqb k' (key x)); cbn [List.map fst];
      intros [H | H]; [right; now left | right; now right
                      | right; now left |].
    destruct (IH H) as [H' | H']; [now left | right; now right].
Qed.

Lemma groupAdd_keys x m :
  NoDup (List.map fst m) -> NoDup (List.map fst (groupAdd keyEqb key x m)).
Proof.
  induction m as [| [k' l] tl IH]; cbn [groupAdd List.map fst]; intros H.
  - repeat constructor. intros [].
  - inversion H as [| ? ? Hk Htl]; subst.
    destruct (keyEqb k' (key x)) eqn:E; cbn [List.map fst];
      [now constructor |].
    constructor; [| now apply IH].
    intros Hin. apply groupAdd_fst_in in Hin as [Hin | Hin]; [| auto].
    apply keyEqb_neq in E. congruence.
Qed.

(** The keys of the map are pairwise different. *)
Lemma d3_group_keys rows : NoDup (List.map fst (d3_group keyEqb key rows)).
Proof.
  unfold d3_group.
  assert (H0 : NoDup (List.map fst (@nil (K * list A)))) by constructor.
  revert H0. generalize (@nil (K * list A)) as m.
  induction rows as [| x rows IH]; intros m Hm; cbn [fold_left]; auto.
  apply IH. now apply groupAdd_keys.
Qed.

End GroupLookup.

Lemma keyEqb_eq (a b : option jsstring) :
  Script.keyEqb a b = true <-> a = b.
Proof.
  destruct a as [x |], b as [y |]; cbn [Script.keyEqb];
    try (split; [discriminate | discriminate]); [| tauto].
  rewrite eqb_eq. split; [intros -> | intros [= ->]]; reflexivity.
Qed.

Lemma Permutation_filter (A : Type) (p : A -> bool) (l l' : list A) :
  Permutation l l' -> Permutation (filter p l) (filter p l').
Proof.
  induction 1 as [| x l l' _ IH | x y l | l l' l'' _ IH1 _ IH2];
    cbn [filter].
  - constructor.
  - destruct (p x); [now constructor | exact IH].
  - destruct (p x), (p y); try reflexivity. apply perm_swap.
  - now transitivity (filter p l').
Qed.

Lemma filter_filter (A : Type) (p q : A -> bool) (l : list A) :
  filter p (filter q l) = filter (fun x => q x && p x) l.
Proof.
  induction l as [| x l IH]; cbn [filter]; [reflexivity |].
  destruct (q x); cbn [filter andb]; [destruct (p x) |]; congruence.
Qed.

(** X5.  The array [valid] of [buildWaterfall] holds exactly the cleaned
    rows of the country that have a valid GDP, each as often as in the
    table, in ascending order of year. *)
Theorem Script_valid_sorted_permutation
        (data : list RawRow) (country : jsstring) :
  Permutation (ScriptLoop.valid (Script.grouped data) country)
              (validRowsOf country (Script.rows data))
  /\ ascending (List.map Script.year
                         (ScriptLoop.valid (Script.grouped data) country)).
Proof.
  split.
  - unfold ScriptLoop.valid, validRowsOf, Script.grouped.
    rewrite (Permutation_filter _ (Array_sort_perm Script.byYear _)).
    rewrite (@d3_group_lookup _ _ Script.keyEqb Script.country keyEqb_eq),
      filter_filter.
    reflexivity.
  - pose proof (Script_valid_by_year data country) as H.
    unfold ascending.
    induction H as [| r l Hl IH Hr]; cbn [List.map]; constructor; auto.
    apply Forall_forall. intros y Hy.
    apply in_map_iff in Hy as (r' & <- & Hr').
    revert r' Hr'. now apply Forall_forall.
Qed.

(** X4.  The early return of [parseNum] for an empty field and for "nan"
    changes nothing: the lines after it, run on the trimmed field, give the
    same result on every field. *)
Theorem parseNum_early_return_redundant (s : jsstring) :
  parseNum (Some s) = parseNumTail (trim s).
Proof. apply parseNum_is_tail. Qed.

(* ================================================================== *)
(** ** The bars of script.js *)
(* ================================================================== *)

Lemma computedFrom_cumulative items : forall i cum,
  Forall (fun b => Script.cumulative b = Script.end_ b)
         (Script.computedFrom i cum items).
Proof.
  induction items as [| x rest IH]; intros i cum; cbn [Script.computedFrom];
    constructor; [reflexivity | apply IH].
Qed.

(** X7.  Whatever the items are (a value may be [NaN] or an infinity),
    the cumulative pass of [draw] yields one bar per item, in order, whose
    start and end are never [NaN], and the [cumulative] field of a bar is its
    end. *)
Theorem Script_bars_are_numbers (items : list Script.Item) :
  List.map Script.it (Script.computed items) = items
  /\ Forall (fun b => isNaN (Script.start b) = false
                      /\ isNaN (Script.end_ b) = false
                      /\ Script.cumulative b = Script.end_ b)
            (Script.computed items).
Proof.
  split; [apply computedFrom_it |].
  apply Forall_forall. intros b Hb. unfold Script.computed in *.
  destruct (@computedFrom_not_nan items 0%nat zero b eq_refl Hb) as [Hs He].
  repeat split; auto.
  pose proof (computedFrom_cumulative items 0 zero) as Hc.
  rewrite Forall_forall in Hc. now apply Hc.
Qed.

Lemma StronglySorted_map (A B : Type) (f : A -> B) (R : B -> B -> Prop)
      (l : list A) :
  StronglySorted (fun a b => R (f a) (f b)) l ->
  StronglySorted R (List.map f l).
Proof.
  induction 1 as [| x l _ IH Hx]; cbn [List.map]; constructor; auto.
  apply Forall_forall. intros y Hy.
  apply in_map_iff in Hy as (x' & <- & Hx').
  rewrite Forall_forall in Hx. now apply Hx.
Qed.

Lemma consecutive_map (A B C : Type) (g : A -> A -> B) (f : B -> C)
      (h : A -> C) :
  (forall a b, f (g a b) = h b) ->
  forall l prev, List.map f (consecutive g prev l) = List.map h l.
Proof.
  intros H. induction l as [| x l IH]; intros prev; cbn [consecutive List.map];
    [reflexivity |].
  now rewrite H, IH.
Qed.

Lemma Script_item_years grouped country :
  List.map Script.item_year (Script.buildWaterfall grouped country)
  = List.map Script.year (ScriptLoop.valid grouped country).
Proof.
  rewrite buildWaterfall_items.
  destruct (ScriptLoop.valid grouped country) as [| first rest];
    [reflexivity |].
  cbn [List.map]. f_equal.
  now apply consecutive_map.
Qed.

(** X6.  [buildWaterfall] yields one item per cleaned row of the country
    with a valid GDP, and the years of the items ascend. *)
Theorem Script_one_item_per_valid_row (data : list RawRow)
        (country : jsstring) :
  length (Script.buildWaterfall (Script.grouped data) country)
  = length (validRowsOf country (Script.rows data))
  /\ ascending (List.map Script.item_year
                  (Script.buildWaterfall (Script.grouped data) country)).
Proof.
  split.
  - rewrite <- (length_map Script.item_year), Script_item_years, length_map.
    apply Permutation_length.
    unfold ScriptLoop.valid, validRowsOf, Script.grouped.
    rewrite (Permutation_filter _ (Array_sort_perm Script.byYear _)).
    rewrite (@d3_group_lookup _ _ Script.keyEqb Script.country keyEqb_eq),
      filter_filter.
    reflexivity.
  - rewrite Script_item_years. unfold ascending.
    apply StronglySorted_map. apply Script_valid_by_year.
Qed.

(* ================================================================== *)
(** ** A table without a GDP column *)
(* ================================================================== *)

Lemma eqCI_canonical a b c :
  canonicalize a = canonicalize b -> eqCI a c = eqCI b c.
Proof. unfold eqCI. now intros ->. Qed.

Lemma matchesCI_prefixCI pat : forall pat' k,
  List.map canonicalize pat = List.map canonicalize pat' ->
  matchesCI pat k = true -> prefixCI pat' k = true.
Proof.
  induction pat as [| p pat IH]; intros [| p' pat'] k E; try discriminate;
    [reflexivity |].
  cbn [List.map] in E. injection E as Ep Er.
  destruct k as [| c k]; cbn [matchesCI prefixCI]; [discriminate |].
  rewrite !andb_true_iff. intros [H1 H2]. split; [| now apply IH].
  now rewrite <- (@eqCI_canonical p p' c Ep).
Qed.

Lemma matches_GDP_contains_gdp k :
  matchesCI (js "GDP") k = true -> containsCI (js "gdp") k = true.
Proof.
  intros H.
  assert (P : prefixCI (js "gdp") k = true).
  { revert H. apply matchesCI_prefixCI. reflexivity. }
  destruct k; cbn [containsCI]; now rewrite P.
Qed.

Lemma find_none_Forall (A : Type) (p : A -> bool) (l : list A) :
  Forall (fun x => p x = false) l -> List.find p l = None.
Proof.
  induction 1 as [| x l Hx _ IH]; cbn [List.find]; [reflexivity |].
  now rewrite Hx.
Qed.

Lemma gdpKey_none keys :
  Forall (fun k => containsCI (js "gdp") k = false) keys ->
  Script.gdpKey keys = None.
Proof.
  intros H. unfold Script.gdpKey.
  rewrite (find_none_Forall _ H).
  rewrite find_none_Forall; [reflexivity |].
  apply Forall_forall. intros k Hk. rewrite Forall_forall in H.
  specialize (H k Hk).
  destruct (matchesCI (js "GDP") k) eqn:E; [| reflexivity].
  apply matches_GDP_contains_gdp in E. congruence.
Qed.

Lemma filter_none (A : Type) (p : A -> bool) (l : list A) :
  Forall (fun x => p x = false) l -> filter p l = [].
Proof.
  induction 1 as [| x l Hx _ IH]; cbn [filter]; [reflexivity |].
  now rewrite Hx.
Qed.

Lemma buildWaterfall_all_invalid rows country :
  Forall (fun r => isNaN (Script.GDP r) = true) rows ->
  Script.buildWaterfall (d3_group Script.keyEqb Script.country rows) country
  = [].
Proof.
  intros H. rewrite buildWaterfall_items.
  unfold ScriptLoop.valid. rewrite filter_none; [reflexivity |].
  apply Forall_forall. intros r Hr. apply Array_sort_in in Hr.
  pose proof (group_get_Forall Script.keyEqb Script.country (Some country) H)
    as HF.
  rewrite Forall_forall in HF. now rewrite (HF r Hr).
Qed.

(** X8.  When no column name of the table contains "gdp" (in any case) and
    no row has a property named "undefined", every row gets an invalid GDP
    and [draw] shows the empty state for every country. *)
Theorem Script_no_gdp_column (data : list RawRow) :
  Forall (fun k => containsCI (js "gdp") k = false)
         (Object_keys (hd [] data)) ->
  Forall (fun r => getProp r None = None) data ->
  Script.gdpKey (Object_keys (hd [] data)) = None
  /\ Forall (fun r => isNaN (Script.GDP r) = true) (Script.rows data)
  /\ forall country,
       Script.draw (Script.grouped data) country = Script.NoData.
Proof.
  intros Hk Hu.
  pose proof (gdpKey_none Hk) as Hg.
  assert (Hr : Forall (fun r => isNaN (Script.GDP r) = true)
                      (Script.rows data)).
  { apply Forall_forall. intros r Hr. unfold Script.rows in Hr.
    apply filter_In in Hr as [Hr _].
    apply in_map_iff in Hr as (raw & <- & Hraw).
    cbn [Script.mkRow Script.GDP]. rewrite Hg.
    rewrite Forall_forall in Hu. now rewrite (Hu raw Hraw). }
  repeat split; auto.
  intros country. unfold Script.draw, Script.grouped.
  now rewrite buildWaterfall_all_invalid.
Qed.

Lemma Script_no_gdp_column_witness :
  Script.gdpKey (Object_keys (hd [] Tables.noGdpColumn)) = None
  /\ Script.draw (Script.grouped Tables.noGdpColumn) (js "Germany")
     = Script.NoData.
Proof.
  assert (Hk : Forall (fun k => containsCI (js "gdp") k = false)
                      (Object_keys (hd [] Tables.noGdpColumn)))
    by (repeat constructor).
  assert (Hu : Forall (fun r => getProp r None = None) Tables.noGdpColumn)
    by (repeat constructor).
  destruct (@Script_no_gdp_column Tables.noGdpColumn Hk Hu) as (Hg & _ & Hd).
  split; [exact Hg | exact (Hd (js "Germany"))].
Defined.

(* ================================================================== *)
(** ** The second script of script.js (lines 235-471) *)
(* ================================================================== *)

Lemma ScriptOld_buildWaterfall_items grouped country :
  ScriptOld.buildWaterfall grouped country =
  match ScriptOldLoop.arr grouped country with
  | [] => []
  | first :: rest =>
      ScriptLoop.baseItem first
      :: consecutive ScriptLoop.deltaItem first rest
  end.
Proof.
  unfold ScriptOld.buildWaterfall. fold (ScriptOldLoop.arr grouped country).
  destruct (ScriptOldLoop.arr grouped country) as [| first rest];
    [reflexivity |].
  f_equal. cbn [length]. rewrite Nat.sub_succ, Nat.sub_0_r.
  exact (map_seq_consecutive ScriptLoop.deltaItem first rest first).
Qed.

Lemma add_nan_l x : add NaN x = NaN.
Proof. reflexivity. Qed.

Lemma add_nan_r x : add x NaN = NaN.
Proof. destruct x; reflexivity. Qed.

Lemma sub_nan_l x : sub NaN x = NaN.
Proof. reflexivity. Qed.

Lemma isNaN_eq x : isNaN x = true <-> x = NaN.
Proof. unfold NaN. destruct x; cbn; split; congruence. Qed.

(** The value of the item built from a row with an invalid GDP is [NaN]. *)
Lemma consecutive_nan_value rest : forall prev k r x,
  nth_error rest k = Some r -> isNaN (Script.GDP r) = true ->
  nth_error (consecutive ScriptLoop.deltaItem prev rest) k = Some x ->
  isNaN (Script.value x) = true.
Proof.
  induction rest as [| cur rest IH]; intros prev [| k] r x; cbn; try discriminate.
  - intros [= ->] Hr [= <-]. cbn. apply isNaN_eq in Hr. rewrite Hr.
    reflexivity.
  - apply IH.
Qed.

Lemma items_nan_value grouped country k r x :
  nth_error (ScriptOldLoop.arr grouped country) k = Some r ->
  isNaN (Script.GDP r) = true ->
  nth_error (ScriptOld.buildWaterfall grouped country) k = Some x ->
  isNaN (Script.value x) = true.
Proof.
  rewrite ScriptOld_buildWaterfall_items.
  destruct (ScriptOldLoop.arr grouped country) as [| first rest];
    [destruct k; discriminate |].
  destruct k as [| k]; cbn [nth_error].
  - intros [= ->] Hr [= <-]. exact Hr.
  - apply consecutive_nan_value.
Qed.

(** Once the running total is [NaN] it stays [NaN]. *)
Lemma computedFrom_nan_stays items : forall i b,
  In b (ScriptOld.computedFrom (S i) NaN items) ->
  isNaN (Script.end_ b) = true.
Proof.
  induction items as [| x rest IH]; intros i b; cbn [ScriptOld.computedFrom];
    [intros [] |].
  rewrite add_nan_l. intros [<- | H]; [reflexivity | eauto].
Qed.

Lemma computedFrom_nan_from items : forall i cum k x n b,
  nth_error items k = Some x -> isNaN (Script.value x) = true ->
  (k <= n)%nat ->
  nth_error (ScriptOld.computedFrom i cum items) n = Some b ->
  isNaN (Script.end_ b) = true.
Proof.
  induction items as [| y rest IH]; intros i cum k x n b;
    [destruct k; discriminate |].
  cbn [ScriptOld.computedFrom].
  destruct k as [| k]; cbn [nth_error].
  - intros [= ->] Hx _. apply isNaN_eq in Hx. rewrite Hx, add_nan_r.
    replace (match i with O => NaN | S _ => NaN end) with NaN
      by (destruct i; reflexivity).
    destruct n as [| n]; cbn [nth_error].
    + intros [= <-]. reflexivity.
    + intros H. apply nth_error_In in H.
      now apply computedFrom_nan_stays in H.
  - intros Hk Hx Hle. destruct n as [| n]; [lia |]. cbn [nth_error].
    apply (IH (S i) _ k x n b Hk Hx). lia.
Qed.

(** X9.  The second script of script.js keeps the rows with an invalid GDP:
    when the [k]-th row of a country, in year order, has an invalid GDP, the
    bar of that row and every later bar of the country end at [NaN]. *)
Theorem ScriptOld_invalid_gdp_poisons grouped country k r :
  nth_error (ScriptOldLoop.arr grouped country) k = Some r ->
  isNaN (Script.GDP r) = true ->
  forall n b,
    (k <= n)%nat ->
    nth_error (ScriptOld.computed (ScriptOld.buildWaterfall grouped country))
              n = Some b ->
    isNaN (Script.end_ b) = true.
Proof.
  intros Hr Hnan n b Hle Hb.
  destruct (nth_error (ScriptOld.buildWaterfall grouped country) k)
    as [x |] eqn:Ex.
  - unfold ScriptOld.computed in Hb.
    eapply computedFrom_nan_from; [exact Ex | | exact Hle | exact Hb].
    eapply items_nan_value; eauto.
  - exfalso. apply nth_error_None in Ex.
    assert (Hk : (k < length (ScriptOldLoop.arr grouped country))%nat)
      by (apply nth_error_Some; congruence).
    rewrite ScriptOld_buildWaterfall_items in Ex.
    destruct (ScriptOldLoop.arr grouped country) as [| first rest];
      cbn [length] in *; [lia |].
    rewrite consecutive_length in Ex. lia.
Qed.

(** In [Sample.gap] the GDP of 2001 is invalid: the bar of 2002 ends at
    [NaN]. *)
Lemma ScriptOld_invalid_gdp_poisons_witness :
  exists r b,
    nth_error (ScriptOldLoop.arr (ScriptOld.grouped Sample.gap)
                                 (js "Germany")) 1 = Some r
    /\ isNaN (Script.GDP r) = true
    /\ nth_error (ScriptOld.computed
                    (ScriptOld.buildWaterfall (ScriptOld.grouped Sample.gap)
                                              (js "Germany"))) 2 = Some b
    /\ isNaN (Script.end_ b) = true.
Proof.
  let v := eval vm_compute in
        (nth_error (ScriptOldLoop.arr (ScriptOld.grouped Sample.gap)
                                      (js "Germany")) 1) in
  match v with Some ?r0 => pose (r := r0) end.
  let v := eval vm_compute in
        (nth_error (ScriptOld.computed
                      (ScriptOld.buildWaterfall
                         (ScriptOld.grouped Sample.gap) (js "Germany"))) 2) in
  match v with Some ?b0 => pose (b := b0) end.
  assert (Hr : nth_error (ScriptOldLoop.arr (ScriptOld.grouped Sample.gap)
                                            (js "Germany")) 1 = Some r)
    by (vm_compute; reflexivity).
  assert (Hn : isNaN (Script.GDP r) = true) by reflexivity.
  assert (Hb : nth_error (ScriptOld.computed
                            (ScriptOld.buildWaterfall
                               (ScriptOld.grouped Sample.gap)
                               (js "Germany"))) 2 = Some b)
    by (vm_compute; reflexivity).
  exists r, b.
  split; [exact Hr |]. split; [exact Hn |]. split; [exact Hb |].
  apply (@ScriptOld_invalid_gdp_poisons
           (ScriptOld.grouped Sample.gap) (js "Germany") 1%nat r Hr Hn
           2%nat b); [lia | exact Hb].
Defined.

(** X10.  The two scripts of script.js build the same items for a country
    whose rows all have a valid GDP, and draw the same bars when in addition
    every item value is finite. *)
Theorem Script_versions_agree grouped country :
  Forall (fun r => isNaN (Script.GDP r) = false)
         (orEmpty (Map_get Script.keyEqb grouped (Some country))) ->
  ScriptOld.buildWaterfall grouped country
  = Script.buildWaterfall grouped country
  /\ (Forall (fun x => isFinite (Script.value x) = true)
             (Script.buildWaterfall grouped country) ->
      ScriptOld.draw grouped country = Script.draw grouped country).
Proof.
  intros Hv.
  assert (E : ScriptLoop.valid grouped country
              = ScriptOldLoop.arr grouped country).
  { unfold ScriptLoop.valid. fold (ScriptOldLoop.arr grouped country).
    apply filter_all. apply Forall_forall. intros r Hr.
    apply Array_sort_in in Hr. rewrite Forall_forall in Hv.
    now rewrite (Hv r Hr). }
  assert (Eb : ScriptOld.buildWaterfall grouped country
               = Script.buildWaterfall grouped country)
    by now rewrite ScriptOld_buildWaterfall_items, buildWaterfall_items, E.
  split; [exact Eb |].
  intros Hf. unfold ScriptOld.draw, Script.draw. rewrite Eb.
  destruct (Script.buildWaterfall grouped country) as [| x items];
    [reflexivity |].
  f_equal. unfold ScriptOld.computed, Script.computed.
  revert Hf. generalize (x :: items) as l. generalize zero as cum.
  generalize 0%nat as i. intros i cum l. revert i cum.
  induction l as [| y l IH]; intros i cum Hf; [reflexivity |].
  inversion Hf as [| ? ? Hy Hl]; subst.
  cbn [ScriptOld.computedFrom Script.computedFrom].
  unfold Script.finiteOr0. rewrite Hy. f_equal. now apply IH.
Qed.

Lemma Script_versions_agree_witness :
  ScriptOld.buildWaterfall (Script.grouped Sample.fractions) (js "Chile")
  = Script.buildWaterfall (Script.grouped Sample.fractions) (js "Chile")
  /\ ScriptOld.draw (Script.grouped Sample.fractions) (js "Chile")
     = Script.draw (Script.grouped Sample.fractions) (js "Chile").
Proof.
  assert (Hv : Forall (fun r => isNaN (Script.GDP r) = false)
                 (orEmpty (Map_get Script.keyEqb
                             (Script.grouped Sample.fractions)
                             (Some (js "Chile")))))
    by (vm_compute; repeat constructor).
  destruct (@Script_versions_agree (Script.grouped Sample.fractions)
              (js "Chile") Hv) as [Hb Hd].
  split; [exact Hb |].
  apply Hd. vm_compute. repeat constructor.
Defined.

(** The columns found by the two scripts. *)
Lemma ScriptOld_same_keys keys :
  List.find (containsCI (js "country")) keys <> None ->
  List.find (containsCI (js "year")) keys <> None ->
  ScriptOld.countryKey keys = Script.countryKey keys
  /\ ScriptOld.yearKey keys = Script.yearKey keys
  /\ ScriptOld.gdpKey keys = Script.gdpKey keys.
Proof.
  intros Hc Hy.
  unfold ScriptOld.countryKey, Script.countryKey, ScriptOld.yearKey,
    Script.yearKey.
  destruct (List.find (containsCI (js "country")) keys) as [c |] eqn:Ec;
    [| congruence].
  destruct (List.find (containsCI (js "year")) keys) as [y |] eqn:Ey;
    [| congruence].
  apply find_some in Ec as [_ Ec]. apply find_some in Ey as [_ Ey].
  apply containsCI_nonempty in Ec, Ey.
  unfold orStr. rewrite Ec, Ey. cbv iota. rewrite Ec.
  repeat split.
Qed.

(** X11.  On a table with a column whose name contains "country" and one
    whose name contains "year", the two scripts of script.js clean and group
    the rows alike. *)
Theorem ScriptOld_same_table (data : list RawRow) :
  List.find (containsCI (js "country")) (Object_keys (hd [] data)) <> None ->
  List.find (containsCI (js "year")) (Object_keys (hd [] data)) <> None ->
  ScriptOld.rows data = Script.rows data
  /\ ScriptOld.grouped data = Script.grouped data.
Proof.
  intros Hc Hy.
  destruct (ScriptOld_same_keys _ Hc Hy) as (Ec & Ey & Eg).
  assert (E : ScriptOld.rows data = Script.rows data).
  { unfold ScriptOld.rows, Script.rows, ScriptOld.mkRow, Script.mkRow.
    now rewrite Ec, Ey, Eg. }
  split; [exact E |].
  unfold ScriptOld.grouped, Script.grouped. now rewrite E.
Qed.

Lemma ScriptOld_same_table_witness :
  ScriptOld.rows Sample.gap = Script.rows Sample.gap
  /\ ScriptOld.grouped Sample.gap = Script.grouped Sample.gap.
Proof.
  apply ScriptOld_same_table; vm_compute; discriminate.
Defined.

(** X12.  In the second script of script.js the country column is the
    first name containing "country", or else the literal "Country Name": the
    positional default [Object.keys(data[0])[1]] that ends the expression is
    never taken. *)
Theorem ScriptOld_country_default (keys : list jsstring) :
  ScriptOld.countryKey keys
  = match List.find (containsCI (js "country")) keys with
    | Some k => Some k
    | None => Some (js "Country Name")
    end.
Proof.
  unfold ScriptOld.countryKey.
  rewrite (@orStr_find (containsCI (js "country")) keys
             (Some (js "Country Name")));
    [| intros k; apply containsCI_nonempty].
  destruct (List.find _ keys) as [k |] eqn:E; [| reflexivity].
  apply find_some in E as [_ E]. apply containsCI_nonempty in E.
  unfold orStr. now rewrite E.
Qed.

(* ================================================================== *)
(** ** The earlier waterfall script (part_000) *)
(* ================================================================== *)

(** X13.  When no column name begins with "GDP" followed by a non-letter or
    the end of the name, the earlier script takes the first column of the
    table as GDP column, provided its name is not empty: the callback of the
    second [find] returns the regular expression instead of testing it. *)
Theorem Part000_gdp_first_column (k0 : jsstring) (rest : list jsstring) :
  k0 <> [] ->
  List.find Part000.startsGDP (k0 :: rest) = None ->
  Part000.gdpKey (k0 :: rest) = Some k0.
Proof.
  intros Hk Hf. unfold Part000.gdpKey. rewrite Hf.
  cbn [List.find]. unfold orStr at 2. cbn [truthyStr].
  unfold orStr. apply truthyStr_nonempty in Hk. now rewrite Hk.
Qed.

Lemma Part000_gdp_first_column_witness :
  Part000.gdpKey Tables.longNames = Some (js "Country Name").
Proof.
  apply (@Part000_gdp_first_column (js "Country Name")
           [js "Year"; js "Gross domestic product"]).
  - discriminate.
  - reflexivity.
Defined.

Section Part000More.
Import Part000 Part000Loop.

Lemma consecutive_Forall (P : Row -> Prop) (Q : Item -> Prop) :
  (forall p c, P p -> P c -> Q (deltaItem p c)) ->
  forall rest prev, P prev -> Forall P rest ->
                    Forall Q (consecutive deltaItem prev rest).
Proof.
  intros H. induction rest as [| c rest IH]; intros prev Hp Hr;
    cbn [consecutive]; constructor; inversion Hr; subst; auto.
Qed.

Lemma parseInt_inRange s : NumOrder.inRange (parseInt s) = true.
Proof.
  unfold parseInt.
  destruct (match trimStart s with
            | [] => (false, trimStart s)
            | c :: r => if isSign c then ((c =? 45)%N, r)
                        else (false, trimStart s)
            end) as [neg u].
  destruct (match u with
            | 48%N :: k :: r =>
                if ((k =? 120) || (k =? 88))%N
                then (16%N, isHexDigit, hexVal, r)
                else (10%N, isDigit, digitVal, u)
            | _ => (10%N, isDigit, digitVal, u)
            end) as [[[radix ok] val] ds].
  destruct (takeWhile ok ds); [reflexivity |].
  destruct (digitsValue radix val _); [reflexivity |].
  apply binary_round_inRange.
Qed.

Lemma cleaned_year_sortable data :
  Forall (fun r => NumOrder.sortable (year r) = true) (cleaned data).
Proof.
  apply Forall_forall. intros r H. unfold cleaned in H.
  apply filter_In in H as [H Hk]. apply in_map_iff in H as (raw & <- & _).
  unfold keep in Hk. apply andb_true_iff in Hk as [_ Hk].
  unfold NumOrder.sortable. rewrite Hk. cbn [andb].
  cbn [mkRow year].
  pose proof (parseInt_inRange
                (trim match orStr (getProp raw (yearKey
                                                  (Object_keys (hd [] data))))
                                  (Some [])
                      with Some s => s | None => [] end)) as Hi.
  destruct (parseInt _); try reflexivity; exact Hi.
Qed.

Lemma sorted_perm data name :
  Permutation (Part000Draw.sorted (byCountry data) name)
              (filter (fun d => JSString.eqb (country d) name)
                      (cleaned data)).
Proof.
  unfold Part000Draw.sorted, byCountry.
  rewrite (Array_sort_perm byYear _).
  now rewrite (@d3_group_lookup _ _ JSString.eqb country eqb_eq).
Qed.

Lemma sorted_by_year data name :
  StronglySorted (fun a b => NumOrder.leNum (year a) (year b) = true)
                 (Part000Draw.sorted (byCountry data) name).
Proof.
  unfold Part000Draw.sorted. apply (Array_sort_ordered year).
  apply (group_get_Forall JSString.eqb country name
           (cleaned_year_sortable data)).
Qed.

Lemma Part000_item_years rows :
  List.map item_year (computeWaterfall rows) = List.map year rows.
Proof.
  rewrite computeWaterfall_items. destruct rows as [| d0 rest];
    [reflexivity |].
  cbn [List.map]. f_equal. now apply consecutive_map.
Qed.

End Part000More.

Lemma Part000_draw_items byCountry name items :
  Part000.drawForCountry byCountry name = Part000.Bars items ->
  items = Part000.computeWaterfall (Part000Draw.sorted byCountry name).
Proof.
  unfold Part000.drawForCountry, Part000Draw.sorted.
  destruct (orEmpty _); [discriminate |]. now intros [= <-].
Qed.

Lemma Part000_sorted_gdp data name :
  Forall (fun r => isNaN (Part000.gdp r) = true
                   \/ isFinite (Part000.gdp r) = true)
         (Part000Draw.sorted (Part000.byCountry data) name).
Proof.
  apply Forall_forall. intros r Hr.
  unfold Part000Draw.sorted in Hr. apply Array_sort_in in Hr.
  pose proof (group_get_Forall JSString.eqb Part000.country name
                (cleaned_gdp data)) as HF.
  rewrite Forall_forall in HF. now apply HF.
Qed.

Lemma Part000_item_ends rows :
  List.map Part000.end_ (Part000.computeWaterfall rows)
  = List.map (fun r => orElse (Part000.gdp r) zero) rows.
Proof.
  rewrite computeWaterfall_items. destruct rows as [| d0 rest];
    [reflexivity |].
  cbn [List.map]. f_equal.
  now apply (@consecutive_map _ _ _ Part000Loop.deltaItem Part000.end_
               (fun r => orElse (Part000.gdp r) zero)).
Qed.

(** X14.  The items that [drawForCountry] draws for a country are one per
    cleaned row of the country, valid GDP or not, in ascending order of
    year. *)
Theorem Part000_one_item_per_row (data : list RawRow) (name : jsstring)
        (items : list Part000.Item) :
  Part000.drawForCountry (Part000.byCountry data) name = Part000.Bars items ->
  Permutation
    (List.map Part000.item_year items)
    (List.map Part000.year
       (filter (fun d => JSString.eqb (Part000.country d) name)
               (Part000.cleaned data)))
  /\ ascending (List.map Part000.item_year items).
Proof.
  intros H. apply Part000_draw_items in H. subst items.
  rewrite Part000_item_years. split.
  - apply Permutation_map, sorted_perm.
  - unfold ascending. apply StronglySorted_map, sorted_by_year.
Qed.

Lemma Part000_one_item_per_row_witness :
  exists items,
    Part000.drawForCountry (Part000.byCountry Sample.gap) (js "Germany")
    = Part000.Bars items
    /\ Permutation
         (List.map Part000.item_year items)
         (List.map Part000.year
            (filter (fun d => JSString.eqb (Part000.country d)
                                           (js "Germany"))
                    (Part000.cleaned Sample.gap)))
    /\ ascending (List.map Part000.item_year items).
Proof.
  let v := eval vm_compute in
        (Part000.computeWaterfall
           (Part000Draw.sorted (Part000.byCountry Sample.gap)
                               (js "Germany"))) in
  pose (items := v).
  assert (H : Part000.drawForCountry (Part000.byCountry Sample.gap)
                                     (js "Germany")
              = Part000.Bars items) by (vm_compute; reflexivity).
  exists items. split; [exact H |].
  exact (@Part000_one_item_per_row Sample.gap (js "Germany") items H).
Defined.

(** X15.  Every item of the earlier script ends at the GDP of its row, an
    invalid GDP counting as 0, and so starts and ends at a finite Number. *)
Theorem Part000_items_finite (data : list RawRow) (name : jsstring)
        (items : list Part000.Item) :
  Part000.drawForCountry (Part000.byCountry data) name = Part000.Bars items ->
  List.map Part000.end_ items
  = List.map (fun r => orElse (Part000.gdp r) zero)
             (Part000Draw.sorted (Part000.byCountry data) name)
  /\ Forall (fun x => isFinite (Part000.start x) = true
                      /\ isFinite (Part000.end_ x) = true) items.
Proof.
  intros H. apply Part000_draw_items in H. subst items.
  split; [apply Part000_item_ends |].
  pose proof (Part000_sorted_gdp data name) as Hg.
  rewrite computeWaterfall_items.
  destruct (Part000Draw.sorted (Part000.byCountry data) name)
    as [| d0 rest]; [constructor |].
  inversion Hg as [| ? ? H0 Hrest]; subst.
  constructor.
  - cbn. split; [reflexivity | now apply orElse_zero_finite].
  - apply (@consecutive_Forall
             (fun r => isNaN (Part000.gdp r) = true
                       \/ isFinite (Part000.gdp r) = true)); auto.
    intros p c Hp Hc. cbn. split; now apply orElse_zero_finite.
Qed.

Lemma Part000_items_finite_witness :
  exists items,
    Part000.drawForCountry (Part000.byCountry Sample.gap) (js "Germany")
    = Part000.Bars items
    /\ List.map Part000.end_ items
       = List.map (fun r => orElse (Part000.gdp r) zero)
                  (Part000Draw.sorted (Part000.byCountry Sample.gap)
                                      (js "Germany"))
    /\ Forall (fun x => isFinite (Part000.start x) = true
                        /\ isFinite (Part000.end_ x) = true) items.
Proof.
  let v := eval vm_compute in
        (Part000.computeWaterfall
           (Part000Draw.sorted (Part000.byCountry Sample.gap)
                               (js "Germany"))) in
  pose (items := v).
  assert (H : Part000.drawForCountry (Part000.byCountry Sample.gap)
                                     (js "Germany")
              = Part000.Bars items) by (vm_compute; reflexivity).
  exists items. split; [exact H |].
  exact (@Part000_items_finite Sample.gap (js "Germany") items H).
Defined.

(* ================================================================== *)
(** ** The axis ticks of the earlier script *)
(* ================================================================== *)

Section Ticks.
Import Part000Ticks.

Lemma filterFrom_index (A : Type) (q : nat -> bool) (l : list A) : forall i,
  length (filterFrom (fun _ j => q j) i l)
  = length (filter q (seq i (length l))).
Proof.
  induction l as [| x l IH]; intros i; cbn [filterFrom length seq filter];
    [reflexivity |].
  destruct (q i); cbn [length]; now rewrite IH.
Qed.

Lemma filterFrom_all (A : Type) (p : A -> nat -> bool) (l : list A) :
  forall i, (forall x j, p x j = true) -> filterFrom p i l = l.
Proof.
  induction l as [| x l IH]; intros i H; cbn [filterFrom]; [reflexivity |].
  now rewrite H, IH.
Qed.

Lemma ceilDiv_covers n : (n <= 12 * ceilDiv n 12)%nat.
Proof.
  unfold ceilDiv.
  pose proof (Nat.div_mod_eq (n + 12 - 1) 12) as E.
  pose proof (Nat.mod_upper_bound (n + 12 - 1) 12) as B.
  lia.
Qed.

Lemma ceilDiv_small n : (0 < n <= 12)%nat -> ceilDiv n 12 = 1%nat.
Proof.
  intros H. unfold ceilDiv.
  pose proof (Nat.div_mod_eq (n + 12 - 1) 12) as E.
  pose proof (Nat.mod_upper_bound (n + 12 - 1) 12) as B.
  assert ((n + 12 - 1) / 12 < 2)%nat by (apply Nat.Div0.div_lt_upper_bound; lia).
  assert (1 <= (n + 12 - 1) / 12)%nat by (apply Nat.div_le_lower_bound; lia).
  lia.
Qed.

Lemma isMultiple_spec s i :
  isMultiple s i = true -> (0 < s)%nat /\ i = (s * (i / s))%nat.
Proof.
  destruct s as [| s]; cbn [isMultiple]; [discriminate |].
  intros H. apply Nat.eqb_eq in H. split; [lia |].
  pose proof (Nat.div_mod_eq i (S s)). lia.
Qed.

(** Fewer than [12 * s] indices hold at most 12 multiples of [s]. *)
Lemma multiples_length s n :
  (n <= 12 * s)%nat ->
  (length (filter (isMultiple s) (seq 0 n)) <= 12)%nat.
Proof.
  intros Hn.
  rewrite <- (length_map (fun i => (i / s)%nat)).
  apply Nat.le_trans with (length (seq 0 12)); [| now rewrite length_seq].
  apply NoDup_incl_length.
  - apply NoDup_map_NoDup_ForallPairs.
    + intros i j Hi Hj E.
      apply filter_In in Hi as [_ Hi]. apply filter_In in Hj as [_ Hj].
      apply isMultiple_spec in Hi as [_ Hi], Hj as [_ Hj].
      rewrite Hi, Hj, E. reflexivity.
    + apply NoDup_filter, seq_NoDup.
  - intros q Hq. apply in_map_iff in Hq as (i & <- & Hi).
    apply filter_In in Hi as [Hi Hm]. apply in_seq in Hi.
    apply isMultiple_spec in Hm as [Hs _].
    apply in_seq. split; [lia |]. cbn.
    apply Nat.Div0.div_lt_upper_bound. lia.
Qed.

End Ticks.

(** X16.  The earlier script labels at most 12 years on the axis, whatever
    the number of bars, and the first year is always among them. *)
Theorem Part000_at_most_12_ticks (years : list double) :
  (length (Part000Ticks.xTickValues years) <= 12)%nat
  /\ hd_error (Part000Ticks.xTickValues years) = hd_error years.
Proof.
  unfold Part000Ticks.xTickValues, Array_filter_indexed. split.
  - rewrite (filterFrom_index
               (Part000Ticks.isMultiple (Part000Ticks.xTicksEvery years))).
    apply multiples_length. apply ceilDiv_covers.
  - destruct years as [| y ys]; [reflexivity |].
    cbn [filterFrom].
    replace (Part000Ticks.isMultiple
               (Part000Ticks.xTicksEvery (y :: ys)) 0) with true;
      [reflexivity |].
    unfold Part000Ticks.xTicksEvery.
    pose proof (ceilDiv_covers (length (y :: ys))) as H. cbn [length] in H.
    cbn [length].
    destruct (Part000Ticks.ceilDiv (S (length ys)) 12) as [| s]; [lia |].
    cbn [Part000Ticks.isMultiple]. now rewrite Nat.Div0.mod_0_l.
Qed.

(** X17.  With at most 12 bars every year is labelled. *)
Theorem Part000_few_years_all_ticked (years : list double) :
  (length years <= 12)%nat ->
  Part000Ticks.xTickValues years = years.
Proof.
  intros H. unfold Part000Ticks.xTickValues, Array_filter_indexed.
  destruct years as [| y ys]; [reflexivity |].
  apply filterFrom_all. intros _ j.
  unfold Part000Ticks.xTicksEvery.
  rewrite ceilDiv_small by (cbn [length] in *; lia).
  cbn [Part000Ticks.isMultiple]. now rewrite Nat.mod_1_r.
Qed.

Lemma Part000_few_years_all_ticked_witness :
  Part000Ticks.xTickValues [ofZ 2000; ofZ 2001; ofZ 2002]
  = [ofZ 2000; ofZ 2001; ofZ 2002].
Proof.
  apply Part000_few_years_all_ticked. cbn [length]. lia.
Defined.

(* ================================================================== *)
(** ** The line chart (part_001) *)
(* ================================================================== *)

Section GroupNonEmpty.
Variables A K : Type.
Variable keyEqb : K -> K -> bool.
Variable key : A -> K.

Lemma groupAdd_nonempty x m :
  Forall (fun kl => snd kl <> []) m ->
  Forall (fun kl => snd kl <> []) (groupAdd keyEqb key x m).
Proof.
  induction 1 as [| [k l] tl Hl Htl IH]; cbn [groupAdd].
  - constructor; [discriminate | constructor].
  - destruct (keyEqb k (key x)); constructor; auto.
    cbn [snd]. intros E. apply app_eq_nil in E as [_ E]. discriminate.
Qed.

(** [d3.group] makes no empty group. *)
Lemma d3_group_nonempty rows :
  Forall (fun kl => snd kl <> []) (d3_group keyEqb key rows).
Proof.
  unfold d3_group.
  assert (H0 : Forall (fun kl : K * list A => snd kl <> []) [])
    by constructor.
  revert H0. generalize (@nil (K * list A)) as m.
  induction rows as [| x rows IH]; intros m Hm; cbn [fold_left]; auto.
  apply IH. now apply groupAdd_nonempty.
Qed.

End GroupNonEmpty.

Section Part001Facts.
Import Part001.

Lemma NoDup_map_filter (A B : Type) (f : A -> B) (p : A -> bool)
      (l : list A) :
  NoDup (List.map f l) -> NoDup (List.map f (filter p l)).
Proof.
  induction l as [| x l IH]; cbn [List.map filter]; intros H;
    [constructor |].
  inversion H as [| ? ? Hx Hl]; subst.
  destruct (p x); cbn [List.map]; [| auto].
  constructor; [| auto].
  intros Hin. apply Hx. apply in_map_iff in Hin as (y & E & Hy).
  apply filter_In in Hy as [Hy _]. apply in_map_iff. eauto.
Qed.

Lemma series_countries data :
  List.map s_country (series data) = List.map fst (seriesByCountry data).
Proof. unfold series. rewrite map_map. reflexivity. Qed.

Lemma includes_In a v : includes a v = true -> In v a.
Proof.
  unfold includes. intros H. apply existsb_exists in H as (x & Hx & E).
  apply keyEqb_eq in E. now subst.
Qed.

(** [update] draws at most one series per selected name. *)
Lemma update_length data selectedCountries :
  (length (update data selectedCountries) <= length selectedCountries)%nat.
Proof.
  rewrite <- (length_map s_country (update data selectedCountries)).
  apply NoDup_incl_length.
  - unfold update. apply NoDup_map_filter. rewrite series_countries.
    apply (@d3_group_keys _ _ keyEqb country keyEqb_eq).
  - intros c Hc. apply in_map_iff in Hc as (s & <- & Hs).
    unfold update in Hs. apply filter_In in Hs as [_ Hs].
    now apply includes_In.
Qed.

Lemma Map_get_entry (A K : Type) (keyEqb : K -> K -> bool)
      (m : GroupMap A K) k l :
  (forall a b, keyEqb a b = true <-> a = b) ->
  NoDup (List.map fst m) -> In (k, l) m -> Map_get keyEqb m k = Some l.
Proof.
  intros Heq. induction m as [| [k' l'] tl IH]; cbn [List.map fst Map_get];
    intros Hnd Hin; [destruct Hin |].
  inversion Hnd as [| ? ? Hk Htl]; subst.
  destruct Hin as [[= -> ->] | Hin].
  - now rewrite (proj2 (Heq k k) eq_refl).
  - destruct (keyEqb k' k) eqn:E; [| auto].
    apply Heq in E. subst k'. exfalso. apply Hk.
    apply in_map_iff. exists (k, l). auto.
Qed.

Lemma filtered_year_sortable data :
  Forall (fun r => NumOrder.sortable (year r) = true) (filtered data).
Proof.
  apply Forall_forall. intros r H. unfold filtered in H.
  apply filter_In in H as [H Hk]. unfold cleaned in H.
  apply in_map_iff in H as (raw & <- & _).
  apply andb_true_iff in Hk as [_ Hk].
  unfold NumOrder.sortable. rewrite Hk. apply ToNumber_inRange.
Qed.

End Part001Facts.

(** X18.  The line chart never draws more than six series, whatever is
    selected in the page and whatever the table holds. *)
Theorem Part001_at_most_six_series (data : list RawRow)
        (countries selectedOptions : list jsstring) :
  (length (Part001.readSelectionAndUpdate data countries selectedOptions)
   <= 6)%nat.
Proof.
  unfold Part001.readSelectionAndUpdate.
  pose proof (firstn_le_length 6 (List.map Some selectedOptions)) as H6.
  destruct (firstn 6 (List.map Some selectedOptions)) as [| o sel] eqn:E.
  - pose proof (update_length data [nth_error countries 0]) as H.
    cbn [length] in H. lia.
  - pose proof (update_length data (o :: sel)) as H. lia.
Qed.

(** X19.  Every series of the line chart holds the kept rows of its country,
    each once, in ascending order of year, and is not empty; no two series
    have the same country. *)
Theorem Part001_series_rows (data : list RawRow) :
  NoDup (List.map Part001.s_country (Part001.series data))
  /\ Forall (fun s =>
               Permutation
                 (Part001.values s)
                 (filter (fun d => Part001.keyEqb (Part001.country d)
                                                  (Part001.s_country s))
                         (Part001.filtered data))
               /\ ascending (List.map Part001.year (Part001.values s))
               /\ Part001.values s <> [])
            (Part001.series data).
Proof.
  pose proof (@d3_group_keys _ _ Part001.keyEqb Part001.country keyEqb_eq
                (Part001.filtered data)) as Hnd.
  split; [now rewrite series_countries |].
  apply Forall_forall. intros s Hs. unfold Part001.series in Hs.
  apply in_map_iff in Hs as ([k l] & <- & Hkl).
  cbn [Part001.values Part001.s_country fst snd].
  unfold Part001.seriesByCountry in Hkl.
  pose proof (@Map_get_entry _ _ Part001.keyEqb _ k l keyEqb_eq Hnd Hkl)
    as Hget.
  pose proof (@d3_group_lookup _ _ Part001.keyEqb Part001.country keyEqb_eq
                (Part001.filtered data) k) as Hl.
  rewrite Hget in Hl.
  cbn [orEmpty] in Hl.
  assert (Hp : Permutation (Array_sort Part001.byYear l)
                 (filter (fun d => Part001.keyEqb (Part001.country d) k)
                         (Part001.filtered data))).
  { rewrite <- Hl. apply Array_sort_perm. }
  split; [exact Hp |]. split.
  - unfold ascending. apply StronglySorted_map.
    apply (Array_sort_ordered Part001.year).
    pose proof (group_get_Forall Part001.keyEqb Part001.country k
                  (filtered_year_sortable data)) as HF.
    now rewrite Hget in HF.
  - intros E. apply Array_sort_nil_inv in E.
    pose proof (d3_group_nonempty Part001.keyEqb Part001.country
                  (Part001.filtered data)) as Hne.
    rewrite Forall_forall in Hne. exact (Hne (k, l) Hkl E).
Qed.

(* ================================================================== *)
(** ** The countries on offer *)
(* ================================================================== *)

Section GroupKeys.
Variables A K : Type.
Variable keyEqb : K -> K -> bool.
Variable key : A -> K.
Hypothesis keyEqb_eq : forall a b, keyEqb a b = true <-> a = b.

Lemma groupAdd_fst_keeps x m k :
  In k (List.map fst m) -> In k (List.map fst (groupAdd keyEqb key x m)).
Proof.
  induction m as [| [k' l] tl IH]; cbn [groupAdd List.map fst];
    [intros [] |].
  destruct (keyEqb k' (key x)); cbn [List.map fst]; intros [H | H]; auto.
  - now left.
  - now right.
  - now left.
  - right. auto.
Qed.

Lemma groupAdd_fst_new x m :
  In (key x) (List.map fst (groupAdd keyEqb key x m)).
Proof.
  induction m as [| [k' l] tl IH]; cbn [groupAdd List.map fst];
    [now left |].
  destruct (keyEqb k' (key x)) eqn:E; cbn [List.map fst].
  - left. now apply keyEqb_eq.
  - now right.
Qed.

(** The keys of the map are the keys of the rows. *)
Lemma d3_group_key_set rows k :
  In k (List.map fst (d3_group keyEqb key rows)) <-> In k (List.map key rows).
Proof.
  unfold d3_group.
  assert (G : forall m,
             In k (List.map fst (fold_left (fun m x => groupAdd keyEqb key x m)
                                           rows m))
             <-> In k (List.map fst m) \/ In k (List.map key rows)).
  { induction rows as [| x rows IH]; intros m; cbn [fold_left List.map].
    - cbn [In]. tauto.
    - rewrite IH. cbn [In]. split.
      + intros [H | H]; [| tauto].
        apply groupAdd_fst_in in H as [H | H]; auto.
      + intros [H | [H | H]]; [left | left | right]; auto.
        * now apply groupAdd_fst_keeps.
        * subst k. apply groupAdd_fst_new. }
  rewrite G. cbn [List.map In]. tauto.
Qed.

End GroupKeys.

(** X20.  The countries that script.js offers for selection are the
    countries of the cleaned rows, each once. *)
Theorem Script_countries (data : list RawRow) :
  NoDup (List.map fst (Script.grouped data))
  /\ forall c, In c (List.map fst (Script.grouped data))
               <-> exists r, In r (Script.rows data) /\ Script.country r = c.
Proof.
  split; [apply (@d3_group_keys _ _ Script.keyEqb Script.country keyEqb_eq) |].
  intros c. unfold Script.grouped.
  rewrite (@d3_group_key_set _ _ Script.keyEqb Script.country keyEqb_eq).
  rewrite in_map_iff. split; intros (r & H1 & H2); exists r; auto.
Qed.

(** X21.  Which series the line chart draws depends only on which names are
    selected, not on their order or repetition: the series keep the order of
    the table. *)
Theorem Part001_update_selection (data : list RawRow)
        (selected selected' : list (option jsstring)) :
  (forall v, In v selected <-> In v selected') ->
  Part001.update data selected = Part001.update data selected'.
Proof.
  intros H. unfold Part001.update. apply filter_ext. intros s.
  unfold Part001.includes.
  destruct (existsb _ selected) eqn:E, (existsb _ selected') eqn:E';
    try reflexivity; exfalso.
  - apply existsb_exists in E as (x & Hx & Ex).
    apply Bool.not_true_iff_false in E'. apply E'.
    apply existsb_exists. exists x. split; [now apply H | exact Ex].
  - apply existsb_exists in E' as (x & Hx & Ex).
    apply Bool.not_true_iff_false in E. apply E.
    apply existsb_exists. exists x. split; [now apply H | exact Ex].
Qed.

Lemma Part001_update_selection_witness :
  Part001.update Sample.gap [Some (js "Peru"); Some (js "Germany")]
  = Part001.update Sample.gap
      [Some (js "Germany"); Some (js "Peru"); Some (js "Germany")].
Proof.
  apply Part001_update_selection. intros v. cbn [In]. tauto.
Defined.
